(** * Vision Assistance Hat: the main controller script, [src/scr/main.py]

    A shallow embedding of the controller: the response parser
    ([extract_text]), the speech command ([speak]), the vibration pulse
    ([vibrate]), the button callback ([button_pressed]), the consumer loop
    ([process_tasks]) and the entry point with its shutdown handler
    ([destroy]).

    Conventions of the model.
    - A Python [str] is a [string]; its characters are the code points
      below 256.
    - The calls that leave the script (the [fswebcam] process, the image
      file, the OpenAI client, [Popen]) take their outcome from a record
      of the outside world, and every call is recorded in a trace of
      events, in the order in which the script issues them.
    - Python exceptions are values of [exn]; [except Exception] catches
      every one of them but [KeyboardInterrupt], as in Python.
    - GPIO calls, [print] and [sleep] succeed (the pins are configured by
      [setup] before anything else runs).  The interrupt signal reaches the
      main thread between two turns of the loop or inside one of the four
      external calls; a pulse, [setup] and [destroy] run to their end. *)

From Stdlib Require Import String Ascii List NArith ZArith QArith Bool Lia.
Import ListNotations.

Local Open Scope string_scope.
Local Open Scope list_scope.

Set Warnings "-register-all".

(** ** Python values *)

(** The objects the parser probes: attribute bags with a [str()], lists,
    strings, [None] and numbers. *)
Inductive pyval : Type :=
| VNone
| VStr (s : string)
| VNum (z : Z)
| VList (l : list pyval)
| VObj (o : pyobj)
with pyobj : Type :=
| MkObj (obj_str : string) (obj_attrs : list (string * pyval)).

Definition obj_str (o : pyobj) : string :=
  match o with MkObj s _ => s end.

Definition obj_attrs (o : pyobj) : list (string * pyval) :=
  match o with MkObj _ a => a end.

(** Exceptions.  [CalledProcessError] is what [subprocess.run(check=True)]
    raises on a non-zero exit; [Exception cls msg] is any other instance of
    a subclass of [Exception] ([OSError], [AttributeError], the client's
    errors); [KeyboardInterrupt] derives from [BaseException] only. *)
Inductive exn : Type :=
| CalledProcessError (returncode : Z)
| Exception (cls msg : string)
| KeyboardInterrupt.

Definition is_Exception (e : exn) : bool :=
  match e with
  | KeyboardInterrupt => false
  | _ => true
  end.

Inductive outcome (A : Type) : Type :=
| Returns (a : A)
| Raises (e : exn).
Arguments Returns {A} a.
Arguments Raises {A} e.

(** ** Strings *)

Module PyStr.

(** [str.isspace] on the code points below 256. *)
Definition isspace (c : ascii) : bool :=
  let n := nat_of_ascii c in
  (Nat.leb 9 n && Nat.leb n 13) || (Nat.leb 28 n && Nat.leb n 32)
  || Nat.eqb n 133 || Nat.eqb n 160.

Fixpoint lstrip (s : string) : string :=
  match s with
  | EmptyString => EmptyString
  | String c r => if isspace c then lstrip r else s
  end.

(** [rstrip]: a character is kept when it is not a space or when
    something is kept after it. *)
Fixpoint rstrip (s : string) : string :=
  match s with
  | EmptyString => EmptyString
  | String c r =>
      match rstrip r with
      | EmptyString => if isspace c then EmptyString else String c EmptyString
      | r' => String c r'
      end
  end.

(** [s.strip()] *)
Definition strip (s : string) : string := rstrip (lstrip s).

(** [s.replace(old, new)] for a pattern [old] of one character. *)
Fixpoint replace (old : ascii) (new : string) (s : string) : string :=
  match s with
  | EmptyString => EmptyString
  | String c r =>
      if Ascii.eqb c old then new ++ replace old new r
      else String c (replace old new r)
  end.

(** The characters of a string, each as a string of length one: what
    iterating over a [str] yields. *)
Fixpoint chars (s : string) : list string :=
  match s with
  | EmptyString => []
  | String c r => String c EmptyString :: chars r
  end.

End PyStr.

Definition dquote : ascii := "034"%char.
Definition squote : ascii := "039"%char.

(** ** Attribute access and iteration *)

Fixpoint assoc (name : string) (attrs : list (string * pyval)) : option pyval :=
  match attrs with
  | [] => None
  | (k, v) :: rest => if String.eqb k name then Some v else assoc name rest
  end.

(** The attributes of a value: only objects carry the ones the parser asks
    for ([output_text], [output], [content], [type], [text]). *)
Definition lookup_attr (v : pyval) (name : string) : option pyval :=
  match v with
  | VObj o => assoc name (obj_attrs o)
  | _ => None
  end.

(** [hasattr(v, name)] *)
Definition hasattr (v : pyval) (name : string) : bool :=
  match lookup_attr v name with Some _ => true | None => false end.

(** [v.name] *)
Definition getattr (v : pyval) (name : string) : outcome pyval :=
  match lookup_attr v name with
  | Some x => Returns x
  | None => Raises (Exception "AttributeError" name)
  end.

(** [getattr(v, name, default)] *)
Definition getattr_default (v : pyval) (name : string) (default : pyval) : pyval :=
  match lookup_attr v name with
  | Some x => x
  | None => default
  end.

(** [for x in v]: the elements, or [TypeError] when [v] is not iterable. *)
Definition iterate (v : pyval) : outcome (list pyval) :=
  match v with
  | VList l => Returns l
  | VStr s => Returns (map VStr (PyStr.chars s))
  | _ => Raises (Exception "TypeError" "object is not iterable")
  end.

(** [v.strip()]: only a [str] has the method. *)
Definition call_strip (v : pyval) : outcome string :=
  match v with
  | VStr s => Returns (PyStr.strip s)
  | _ => Raises (Exception "AttributeError" "strip")
  end.

(** [v in ("output_text", "text")] *)
Definition in_text_types (v : pyval) : bool :=
  match v with
  | VStr s => String.eqb s "output_text" || String.eqb s "text"
  | _ => false
  end.

(** ** [extract_text] *)

(** The inner loop, [for part in getattr(item, "content", [])], over the
    parts already obtained: [Returns (Some s)] is [return s], [Returns None]
    is the loop running to its end. *)
Fixpoint scan_parts (parts : list pyval) : outcome (option string) :=
  match parts with
  | [] => Returns None
  | part :: rest =>
      if in_text_types (getattr_default part "type" (VStr EmptyString))
      then match getattr part "text" with
           | Returns t =>
               match call_strip t with
               | Returns s => Returns (Some s)
               | Raises e => Raises e
               end
           | Raises e => Raises e
           end
      else scan_parts rest
  end.

(** The outer loop, [for item in getattr(resp, "output", [])]. *)
Fixpoint scan_items (items : list pyval) : outcome (option string) :=
  match items with
  | [] => Returns None
  | item :: rest =>
      match iterate (getattr_default item "content" (VList [])) with
      | Raises e => Raises e
      | Returns parts =>
          match scan_parts parts with
          | Returns None => scan_items rest
          | r => r
          end
      end
  end.

(** The body of the [try] block. *)
Definition extract_text_try (resp : pyobj) : outcome (option string) :=
  if hasattr (VObj resp) "output_text" then
    match getattr (VObj resp) "output_text" with
    | Returns t =>
        match call_strip t with
        | Returns s => Returns (Some s)
        | Raises e => Raises e
        end
    | Raises e => Raises e
    end
  else
    match iterate (getattr_default (VObj resp) "output" (VList [])) with
    | Raises e => Raises e
    | Returns items => scan_items items
    end.

(** [extract_text(resp)]: the [try] block, [except Exception: pass], then
    the fallback [return str(resp)].  An exception that is not an
    [Exception] leaves the function. *)
Definition extract_text (resp : pyobj) : outcome string :=
  match extract_text_try resp with
  | Returns (Some s) => Returns s
  | Returns None => Returns (obj_str resp)
  | Raises e => if is_Exception e then Returns (obj_str resp) else Raises e
  end.

(** ** Base64, as [base64.b64encode(...).decode("utf-8")] *)

Module Base64.

Definition alphabet : string :=
  "ABCDEFGHIJKLMNOPQRSTUVWXYZabcdefghijklmnopqrstuvwxyz0123456789+/".

Definition digit (n : N) : ascii :=
  match String.get (N.to_nat n) alphabet with
  | Some c => c
  | None => "="%char
  end.

Fixpoint b64encode (bs : list Byte.byte) : string :=
  match bs with
  | [] => EmptyString
  | [a] =>
      let x := Byte.to_N a in
      String (digit (x / 4)) (String (digit ((x mod 4) * 16)) "==")
  | [a; b] =>
      let x := Byte.to_N a in
      let y := Byte.to_N b in
      String (digit (x / 4))
        (String (digit ((x mod 4) * 16 + y / 16))
           (String (digit ((y mod 16) * 4)) "="))
  | a :: b :: c :: rest =>
      let x := Byte.to_N a in
      let y := Byte.to_N b in
      let z := Byte.to_N c in
      String (digit (x / 4))
        (String (digit ((x mod 4) * 16 + y / 16))
           (String (digit ((y mod 16) * 4 + z / 64))
              (String (digit (z mod 64)) (b64encode rest))))
  end%N.

End Base64.

(** ** The outside world, events and the state of the process *)

Inductive level : Type := LOW | HIGH.

Inductive direction : Type := IN_PUD_UP | OUT.

Inductive print_arg : Type :=
| PStr (s : string)
| PExn (e : exn).

(** What the script does to the outside, in program order. *)
Inductive event : Type :=
| PrintCall (args : list print_arg)
| GpioSetmodeBoard
| GpioSetup (pin : Z) (d : direction)
| GpioOutput (pin : Z) (l : level)
| GpioAddEventDetect (pin : Z) (bouncetime : Z)
| GpioCleanup
| Sleep (seconds : Q)
| SubprocessRun (argv : list string)
| OpenRead (path : string)
| ResponsesCreate (model effort : string) (max_output_tokens : Z)
    (prompt image_url : string)
| Popen (cmd : string)
| QueuePut (task : pyval)
| QueueGet (task : pyval).

(** How a process started by [subprocess.run] ends. *)
Inductive run_result : Type :=
| Exited (returncode : Z)
| RunRaised (e : exn).

(** The outcomes of the external calls of one processing cycle. *)
Record world : Type := {
  fswebcam : run_result;
  image_file : outcome (list Byte.byte);
  responses_create : outcome pyobj;
  popen : outcome unit
}.

Record state : Type := {
  task_queue : list pyval;
  pin_level : Z -> level;
  gpio_channels : list (Z * direction);
  gpio_event_detect : list Z
}.

(** ** A monad for state, exceptions and the trace *)

Definition M (A : Type) : Type := state -> outcome A * state * list event.

Definition ret {A} (a : A) : M A := fun st => (Returns a, st, []).

Definition bind {A B} (m : M A) (f : A -> M B) : M B :=
  fun st =>
    match m st with
    | (Returns a, st1, t1) =>
        match f a st1 with
        | (r, st2, t2) => (r, st2, t1 ++ t2)
        end
    | (Raises e, st1, t1) => (Raises e, st1, t1)
    end.

Definition raise {A} (e : exn) : M A := fun st => (Raises e, st, []).

Definition emit (e : event) : M unit := fun st => (Returns tt, st, [e]).

Definition lift {A} (o : outcome A) : M A := fun st => (o, st, []).

(** [try: body / except Exception as e: handler(e)] *)
Definition try_except_Exception {A} (body : M A) (handler : exn -> M A) : M A :=
  fun st =>
    match body st with
    | (Raises e, st1, t1) =>
        if is_Exception e then
          match handler e st1 with
          | (r, st2, t2) => (r, st2, t1 ++ t2)
          end
        else (Raises e, st1, t1)
    | r => r
    end.

Declare Scope py_scope.
Delimit Scope py_scope with py.
Notation "x <- m ;; k" := (bind m (fun x => k))
  (at level 61, m at next level, right associativity) : py_scope.
Notation "m ;; k" := (bind m (fun _ => k))
  (at level 61, right associativity) : py_scope.
Local Open Scope py_scope.

(** ** Constants of the script *)

Definition BtnPin : Z := 11.
Definition VibPin : Z := 29.
Definition MODEL : string := "gpt-5-nano-2025-08-07".
Definition IMAGE_PATH : string := "captured_image.jpg".
Definition RESOLUTION : string := "640x480".

(** ** Library calls *)

Definition print (args : list print_arg) : M unit := emit (PrintCall args).

Definition sleep (seconds : Q) : M unit := emit (Sleep seconds).

Definition GPIO_output (pin : Z) (l : level) : M unit :=
  fun st =>
    (Returns tt,
     {| task_queue := task_queue st;
        pin_level := fun p => if Z.eqb p pin then l else pin_level st p;
        gpio_channels := gpio_channels st;
        gpio_event_detect := gpio_event_detect st |},
     [GpioOutput pin l]).

Definition GPIO_setmode_BOARD : M unit := emit GpioSetmodeBoard.

Definition GPIO_setup (pin : Z) (d : direction) : M unit :=
  fun st =>
    (Returns tt,
     {| task_queue := task_queue st;
        pin_level := pin_level st;
        gpio_channels := (pin, d) :: gpio_channels st;
        gpio_event_detect := gpio_event_detect st |},
     [GpioSetup pin d]).

Definition GPIO_add_event_detect (pin bouncetime : Z) : M unit :=
  fun st =>
    (Returns tt,
     {| task_queue := task_queue st;
        pin_level := pin_level st;
        gpio_channels := gpio_channels st;
        gpio_event_detect := pin :: gpio_event_detect st |},
     [GpioAddEventDetect pin bouncetime]).

(** [GPIO.cleanup()] gives back every channel and removes the edge
    detection. *)
Definition GPIO_cleanup : M unit :=
  fun st =>
    (Returns tt,
     {| task_queue := task_queue st;
        pin_level := pin_level st;
        gpio_channels := [];
        gpio_event_detect := [] |},
     [GpioCleanup]).

(** [task_queue.put(task)]: the queue is unbounded, the task goes to the
    tail. *)
Definition queue_put (task : pyval) : M unit :=
  fun st =>
    (Returns tt,
     {| task_queue := task_queue st ++ [task];
        pin_level := pin_level st;
        gpio_channels := gpio_channels st;
        gpio_event_detect := gpio_event_detect st |},
     [QueuePut task]).

(** [subprocess.run(argv, check=True)] *)
Definition subprocess_run_check (w : world) (argv : list string) : M unit :=
  emit (SubprocessRun argv) ;;
  match fswebcam w with
  | Exited code => if Z.eqb code 0 then ret tt else raise (CalledProcessError code)
  | RunRaised e => raise e
  end.

(** [subprocess.Popen(cmd, shell=True, stderr=DEVNULL)] *)
Definition subprocess_Popen (w : world) (cmd : string) : M unit :=
  emit (Popen cmd) ;; lift (popen w).

(** [client.responses.create(...)] with the one message the script sends. *)
Definition client_responses_create (w : world) (prompt data_url : string) : M pyobj :=
  emit (ResponsesCreate MODEL "low" 256 prompt data_url) ;;
  lift (responses_create w).

(** ** The functions of the script *)

Definition capture_image (w : world) (path : string) : M unit :=
  print [PStr " Capturing image..."] ;;
  subprocess_run_check w
    ["fswebcam"; "-r"; RESOLUTION; "-S"; "2"; "--no-banner"; path] ;;
  print [PStr " Image captured successfully!"].

Definition to_data_url (w : world) (path : string) : M string :=
  emit (OpenRead path) ;;
  bytes <- lift (image_file w) ;;
  ret ("data:image/jpeg;base64," ++ Base64.b64encode bytes)%string.

(** The instruction sent with the image (a local of [analyze_image]). *)
Definition prompt : string :=
  "Describe what’s visible in one short sentence (<= 15 words).".

Definition analyze_image (w : world) : M string :=
  capture_image w IMAGE_PATH ;;
  data_url <- to_data_url w IMAGE_PATH ;;
  print [PStr " Sending image to OpenAI..."] ;;
  resp <- client_responses_create w prompt data_url ;;
  description <- lift (extract_text resp) ;;
  print [PStr " AI says:"; PStr description] ;;
  ret description.

(** The two [replace] calls of [speak]: every double quote, then every
    single quote, replaced by the empty string. *)
Definition safe_text_of (text : string) : string :=
  PyStr.replace squote EmptyString (PyStr.replace dquote EmptyString text).

(** The f-string handed to the shell. *)
Definition espeak_command (safe_text : string) : string :=
  "espeak " ++ String dquote (safe_text ++ String dquote " --stdout | aplay -D plughw:2,0").

Definition speak (w : world) (text : string) : M unit :=
  let safe_text := safe_text_of text in
  try_except_Exception
    (subprocess_Popen w (espeak_command safe_text) ;;
     print [PStr (" Speaking: " ++ safe_text)%string])
    (fun e => print [PStr " Speech failed:"; PExn e]).

Definition vibrate (duration : Q) : M unit :=
  GPIO_output VibPin HIGH ;;
  sleep duration ;;
  GPIO_output VibPin LOW.

Definition setup : M unit :=
  GPIO_setmode_BOARD ;;
  GPIO_setup BtnPin IN_PUD_UP ;;
  GPIO_setup VibPin OUT ;;
  GPIO_output VibPin LOW ;;
  print [PStr " Setup complete. Waiting for button press..."].

Definition button_pressed (channel : Z) : M unit :=
  print [PStr " Button pressed! Queuing capture task..."] ;;
  vibrate 0.2 ;;
  queue_put (VStr "capture").

(** [task == "capture"] *)
Definition is_capture (task : pyval) : bool :=
  match task with
  | VStr s => String.eqb s "capture"
  | _ => false
  end.

(** What the consumer does with a task it has taken from the queue. *)
Definition process_task (w : world) (task : pyval) : M unit :=
  if is_capture task then
    try_except_Exception
      (description <- analyze_image w ;;
       vibrate 0.5 ;;
       print [PStr " Description:"; PStr description] ;;
       speak w description)
      (fun e =>
         print [PStr " Error:"; PExn e] ;;
         vibrate 1.0)
  else ret tt.

(** [if not task_queue.empty(): task = task_queue.get()]: with the single
    consumer, the head of the queue when there is one. *)
Definition queue_poll : M (option pyval) :=
  fun st =>
    match task_queue st with
    | [] => (Returns None, st, [])
    | task :: rest =>
        (Returns (Some task),
         {| task_queue := rest;
            pin_level := pin_level st;
            gpio_channels := gpio_channels st;
            gpio_event_detect := gpio_event_detect st |},
         [QueueGet task])
    end.

(** One turn of the [while True] loop of [process_tasks]. *)
Definition process_tasks_iteration (w : world) : M unit :=
  polled <- queue_poll ;;
  match polled with
  | Some task => process_task w task
  | None => ret tt
  end ;;
  sleep 0.1.

(** What happens to the process, one step at a time: the GPIO event thread
    runs the callback for a debounced edge, the main thread runs one turn
    of its loop, or the interrupt signal reaches the main thread between
    two turns. *)
Inductive action : Type :=
| Press (channel : Z)
| Poll (w : world)
| Sigint.

(** The loop has no exit: after any finite schedule it is either still
    polling or it has been left by an exception. *)
Inductive loop_status : Type :=
| Polling
| Stopped (e : exn).

Fixpoint process_tasks (sched : list action) (st : state)
  : loop_status * state * list event :=
  match sched with
  | [] => (Polling, st, [])
  | Press channel :: rest =>
      match button_pressed channel st with
      | (_, st1, t1) =>
          match process_tasks rest st1 with
          | (r, st2, t2) => (r, st2, t1 ++ t2)
          end
      end
  | Poll w :: rest =>
      match process_tasks_iteration w st with
      | (Returns _, st1, t1) =>
          match process_tasks rest st1 with
          | (r, st2, t2) => (r, st2, t1 ++ t2)
          end
      | (Raises e, st1, t1) => (Stopped e, st1, t1)
      end
  | Sigint :: _ => (Stopped KeyboardInterrupt, st, [])
  end.

Definition destroy : M unit :=
  GPIO_output VibPin LOW ;;
  GPIO_cleanup ;;
  print [PStr " GPIO cleaned up."].

(** How the process stands after a finite schedule. *)
Inductive process_status : Type :=
| Running
| ExitedCleanly
| Traceback (e : exn).

(** A process that has just started: nothing queued, nothing configured. *)
Definition boot : state :=
  {| task_queue := [];
     pin_level := fun _ => LOW;
     gpio_channels := [];
     gpio_event_detect := [] |}.

(** The [__main__] block. *)
Definition main (sched : list action) : process_status * state * list event :=
  match (setup ;; GPIO_add_event_detect BtnPin 500) boot with
  | (Raises e, st0, t0) => (Traceback e, st0, t0)
  | (Returns _, st0, t0) =>
      match process_tasks sched st0 with
      | (Polling, st1, t1) => (Running, st1, t0 ++ t1)
      | (Stopped KeyboardInterrupt, st1, t1) =>
          match destroy st1 with
          | (Returns _, st2, t2) => (ExitedCleanly, st2, t0 ++ t1 ++ t2)
          | (Raises e, st2, t2) => (Traceback e, st2, t0 ++ t1 ++ t2)
          end
      | (Stopped e, st1, t1) => (Traceback e, st1, t0 ++ t1)
      end
  end.

(** ** Reading a run *)

Definition result_of {R : Type} (x : R * state * list event) : R := fst (fst x).
Definition state_of {R : Type} (x : R * state * list event) : state := snd (fst x).
Definition trace_of {R : Type} (x : R * state * list event) : list event := snd x.

(** The pulses of the vibration motor in a trace: the motor pin driven
    high, held for some seconds, then driven low. *)
Fixpoint pulses (tr : list event) : list Q :=
  match tr with
  | [] => []
  | GpioOutput p HIGH :: rest =>
      match rest with
      | Sleep d :: GpioOutput p' LOW :: _ =>
          if Z.eqb p VibPin && Z.eqb p' VibPin then d :: pulses rest
          else pulses rest
      | _ => pulses rest
      end
  | _ :: rest => pulses rest
  end.

(** What [capture_image] does up to the end of the [fswebcam] process. *)
Definition capture_events : list event :=
  [PrintCall [PStr " Capturing image..."];
   SubprocessRun ["fswebcam"; "-r"; RESOLUTION; "-S"; "2"; "--no-banner"; IMAGE_PATH]].

(** What [analyze_image] does up to the opening of the image file. *)
Definition read_events : list event :=
  capture_events
    ++ [PrintCall [PStr " Image captured successfully!"]; OpenRead IMAGE_PATH].

(** What [analyze_image] does up to the request to the analysis service. *)
Definition request_events (bytes : list Byte.byte) : list event :=
  read_events
    ++ [PrintCall [PStr " Sending image to OpenAI..."];
        ResponsesCreate MODEL "low" 256 prompt
          ("data:image/jpeg;base64," ++ Base64.b64encode bytes)].

(** The three events of [vibrate(d)]. *)
Definition pulse (d : Q) : list event :=
  [GpioOutput VibPin HIGH; Sleep d; GpioOutput VibPin LOW].

Definition is_capture_call (e : event) : bool :=
  match e with SubprocessRun _ => true | _ => false end.

Definition is_analysis_call (e : event) : bool :=
  match e with ResponsesCreate _ _ _ _ _ => true | _ => false end.

Definition is_speech_call (e : event) : bool :=
  match e with Popen _ => true | _ => false end.

Definition is_service_call (e : event) : bool :=
  is_capture_call e || is_analysis_call e || is_speech_call e
  || match e with OpenRead _ => true | _ => false end.

Definition capture_calls (tr : list event) : list event := filter is_capture_call tr.
Definition analysis_calls (tr : list event) : list event := filter is_analysis_call tr.
Definition service_calls (tr : list event) : list event := filter is_service_call tr.

(** The commands given to [Popen], in order. *)
Fixpoint speech_calls (tr : list event) : list string :=
  match tr with
  | [] => []
  | Popen cmd :: rest => cmd :: speech_calls rest
  | _ :: rest => speech_calls rest
  end.

Fixpoint queue_puts (tr : list event) : list pyval :=
  match tr with
  | [] => []
  | QueuePut t :: rest => t :: queue_puts rest
  | _ :: rest => queue_puts rest
  end.

Fixpoint queue_gets (tr : list event) : list pyval :=
  match tr with
  | [] => []
  | QueueGet t :: rest => t :: queue_gets rest
  | _ :: rest => queue_gets rest
  end.

(** A cycle ends in Failed: the long pulse fires and nothing is spoken. *)
Definition cycle_failed (tr : list event) : Prop :=
  In 1.0%Q (pulses tr) /\ speech_calls tr = [].

(** The capture step raises an error: [fswebcam] exits with a non-zero
    status, or starting it fails with an [Exception]. *)
Definition capture_raises (w : world) (e : exn) : Prop :=
  (exists code, fswebcam w = Exited code /\ code <> 0%Z /\ e = CalledProcessError code)
  \/ (fswebcam w = RunRaised e /\ is_Exception e = true).

(** Every failure of an external call is an [Exception], none is the
    interrupt signal. *)
Definition errors_only (w : world) : bool :=
  match fswebcam w with RunRaised e => is_Exception e | Exited _ => true end
  && match image_file w with Raises e => is_Exception e | Returns _ => true end
  && match responses_create w with Raises e => is_Exception e | Returns _ => true end
  && match popen w with Raises e => is_Exception e | Returns _ => true end.

(** [st'] is what a processing cycle that started in [st] leaves: the
    queue without the task, the motor pin low, the GPIO set-up untouched. *)
Definition after_cycle (q : list pyval) (st st' : state) : Prop :=
  task_queue st' = q
  /\ pin_level st' VibPin = LOW
  /\ gpio_channels st' = gpio_channels st
  /\ gpio_event_detect st' = gpio_event_detect st.

(** A computation that leaves the queue alone: it neither changes it nor
    calls [put] or [get]. *)
Definition queue_quiet {A : Type} (m : M A) : Prop :=
  forall s,
    task_queue (state_of (m s)) = task_queue s
    /\ queue_puts (trace_of (m s)) = []
    /\ queue_gets (trace_of (m s)) = [].

Definition is_queue_event (e : event) : bool :=
  match e with
  | QueuePut _ | QueueGet _ => true
  | _ => false
  end.

Definition is_quote (c : ascii) : bool := Ascii.eqb c dquote || Ascii.eqb c squote.

(** ** The response shapes, in the words of the specification *)

(** The direct text field, when the response has one holding text. *)
Definition spec_direct_text (resp : pyobj) : option string :=
  match lookup_attr (VObj resp) "output_text" with
  | Some (VStr s) => Some s
  | _ => None
  end.

Definition list_of (v : option pyval) : list pyval :=
  match v with
  | Some (VList l) => l
  | _ => []
  end.

Definition content_of (item : pyval) : list pyval :=
  list_of (lookup_attr item "content").

(** The content parts of the nested shape, item after item. *)
Definition spec_content_parts (resp : pyobj) : list pyval :=
  flat_map content_of (list_of (lookup_attr (VObj resp) "output")).

Definition text_typed (part : pyval) : bool :=
  match lookup_attr part "type" with
  | Some ty => in_text_types ty
  | None => false
  end.

(** The text of the first text-typed part of the nested shape. *)
Definition spec_first_text_part (resp : pyobj) : option string :=
  match find text_typed (spec_content_parts resp) with
  | Some part =>
      match lookup_attr part "text" with
      | Some (VStr t) => Some t
      | _ => None
      end
  | None => None
  end.

(** The direct text when that shape is present; otherwise the first
    text-typed part; otherwise the stringified response. *)
Definition spec_extract_text (resp : pyobj) : string :=
  match spec_direct_text resp with
  | Some s => PyStr.strip s
  | None =>
      match spec_first_text_part resp with
      | Some t => PyStr.strip t
      | None => obj_str resp
      end
  end.

(** The nested shape is well formed: [output] is absent or a list, and the
    [content] of each of its items is absent or a list. *)
Definition list_or_absent (v : option pyval) : Prop :=
  match v with
  | None => True
  | Some (VList _) => True
  | Some _ => False
  end.

Definition nested_well_formed (resp : pyobj) : Prop :=
  list_or_absent (lookup_attr (VObj resp) "output")
  /\ Forall (fun item => list_or_absent (lookup_attr item "content"))
       (list_of (lookup_attr (VObj resp) "output")).

(** ** Sample runs *)

Module Sample.

Definition text_part (t : pyval) : pyval :=
  VObj (MkObj "ResponseOutputText" [("type", VStr "output_text"); ("text", t)]).

Definition message (parts : list pyval) : pyval :=
  VObj (MkObj "ResponseOutputMessage" [("type", VStr "message"); ("content", VList parts)]).

(** A response with a direct text field. *)
Definition chair : pyobj :=
  MkObj "Response(chair)" [("output_text", VStr " A 'red' chair near a window. ")].

(** A response whose direct text field is empty. *)
Definition empty_text : pyobj :=
  MkObj "Response(empty)" [("output_text", VStr EmptyString); ("output", VList [])].

(** A response with no text anywhere. *)
Definition no_text : pyobj :=
  MkObj "Response(none)" [("output", VList [])].

(** A response with the nested shape only. *)
Definition nested : pyobj :=
  MkObj "Response(nested)"
    [("output", VList [VObj (MkObj "ResponseReasoningItem" [("type", VStr "reasoning")]);
                       message [text_part (VStr " Hi. ")]])].

(** A response whose direct text field is [None], next to a nested
    shape that holds text. *)
Definition none_direct : pyobj :=
  MkObj "Response(null)"
    [("output_text", VNone);
     ("output", VList [message [text_part (VStr "hi")]])].

(** An item whose [content] cannot be iterated. *)
Definition broken_item : pyval :=
  VObj (MkObj "Broken" [("content", VNone)]).

(** A response whose nested shape breaks after its first text. *)
Definition broken_tail : pyobj :=
  MkObj "Response(tail)"
    [("output", VList [message [text_part (VStr " first ")]; broken_item])].

(** A response whose nested shape breaks before its first text. *)
Definition broken_head : pyobj :=
  MkObj "Response(head)"
    [("output", VList [broken_item; message [text_part (VStr " second ")]])].

Definition jpeg : list Byte.byte := [Byte.xff; Byte.xd8; Byte.xff; Byte.xd9].

(** All services answer. *)
Definition answers (resp : pyobj) : world :=
  {| fswebcam := Exited 0;
     image_file := Returns jpeg;
     responses_create := Returns resp;
     popen := Returns tt |}.

(** The camera process exits with status 1. *)
Definition camera_down : world :=
  {| fswebcam := Exited 1;
     image_file := Returns jpeg;
     responses_create := Returns chair;
     popen := Returns tt |}.

(** The request to the analysis service fails. *)
Definition network_down : world :=
  {| fswebcam := Exited 0;
     image_file := Returns jpeg;
     responses_create := Raises (Exception "APIConnectionError" "Connection error.");
     popen := Returns tt |}.

(** The shell cannot be started. *)
Definition no_shell : world :=
  {| fswebcam := Exited 0;
     image_file := Returns jpeg;
     responses_create := Returns chair;
     popen := Raises (Exception "OSError" "Cannot allocate memory") |}.

(** The state after [setup], with the given tasks queued. *)
Definition ready (tasks : list pyval) : state :=
  {| task_queue := tasks;
     pin_level := fun _ => LOW;
     gpio_channels := [(VibPin, OUT); (BtnPin, IN_PUD_UP)];
     gpio_event_detect := [BtnPin] |}.

End Sample.

(** ** More ways a run can go *)

Module Fault.

(** The image file cannot be read back. *)
Definition unreadable : world :=
  {| fswebcam := Exited 0;
     image_file := Raises (Exception "FileNotFoundError" "captured_image.jpg");
     responses_create := Returns Sample.chair;
     popen := Returns tt |}.

(** The interrupt signal arrives while [fswebcam] runs. *)
Definition interrupted_capture : world :=
  {| fswebcam := RunRaised KeyboardInterrupt;
     image_file := Returns Sample.jpeg;
     responses_create := Returns Sample.chair;
     popen := Returns tt |}.

(** The interrupt signal arrives while the shell is started. *)
Definition interrupted_speech : world :=
  {| fswebcam := Exited 0;
     image_file := Returns Sample.jpeg;
     responses_create := Returns Sample.chair;
     popen := Raises KeyboardInterrupt |}.

End Fault.

(** ** More readings of a run *)

(** A computation that drives no pin but the motor's and leaves the GPIO
    configuration alone. *)
Definition motor_safe {A : Type} (m : M A) : Prop :=
  forall s,
    gpio_channels (state_of (m s)) = gpio_channels s
    /\ gpio_event_detect (state_of (m s)) = gpio_event_detect s
    /\ (forall p, p <> VibPin -> pin_level (state_of (m s)) p = pin_level s p).

(** The number of button presses in a schedule. *)
Fixpoint presses (sched : list action) : nat :=
  match sched with
  | [] => 0
  | Press _ :: rest => S (presses rest)
  | _ :: rest => presses rest
  end.

(** How often a character occurs in a string. *)
Fixpoint count_char (c : ascii) (s : string) : nat :=
  match s with
  | EmptyString => 0
  | String a r => (if Ascii.eqb a c then 1 else 0) + count_char c r
  end.

(** How [analyze_image] can end, with what it has done by then: the
    capture raised, the image file could not be read, the request raised,
    or a description came back. *)
Definition analysis_shape (w : world) (r : outcome string) (pre : list event) : Prop :=
  (exists e, r = Raises e /\ pre = capture_events /\ fswebcam w <> Exited 0)
  \/ (exists e, r = Raises e /\ pre = read_events
                /\ fswebcam w = Exited 0 /\ image_file w = Raises e)
  \/ (exists e bytes, r = Raises e /\ pre = request_events bytes
                      /\ fswebcam w = Exited 0 /\ image_file w = Returns bytes
                      /\ responses_create w = Raises e)
  \/ (exists d bytes resp,
        r = Returns d
        /\ pre = request_events bytes ++ [PrintCall [PStr " AI says:"; PStr d]]
        /\ fswebcam w = Exited 0 /\ image_file w = Returns bytes
        /\ responses_create w = Returns resp /\ extract_text resp = Returns d).

(** Whether a string consists of white space only. *)
Fixpoint all_space (s : string) : bool :=
  match s with
  | EmptyString => true
  | String c r => PyStr.isspace c && all_space r
  end.

Definition first_char (s : string) : option ascii :=
  match s with
  | EmptyString => None
  | String c _ => Some c
  end.

Fixpoint last_char (s : string) : option ascii :=
  match s with
  | EmptyString => None
  | String c EmptyString => Some c
  | String _ r => last_char r
  end.

(** A string that neither starts nor ends with white space. *)
Definition trimmed (s : string) : Prop :=
  match first_char s, last_char s with
  | Some a, Some b => PyStr.isspace a = false /\ PyStr.isspace b = false
  | _, _ => s = EmptyString
  end.

(** ** Reading base64 back *)

(** The inverse of [Base64.b64encode]: it serves to state that the data
    URL loses nothing of the image. *)
Module Base64Decode.

Fixpoint index_from (n : N) (alphabet : string) (c : ascii) : option N :=
  match alphabet with
  | EmptyString => None
  | String a r => if Ascii.eqb a c then Some n else index_from (n + 1) r c
  end.

(** The value of a base64 digit. *)
Definition index (c : ascii) : option N := index_from 0 Base64.alphabet c.

Definition is_pad (c : ascii) : bool := Ascii.eqb c "="%char.

Definition is_empty (s : string) : bool :=
  match s with EmptyString => true | _ => false end.

Definition decode1 (s1 s2 : N) : option (list Byte.byte) :=
  match Byte.of_N (s1 * 4 + s2 / 16) with
  | Some a => Some [a]
  | None => None
  end.

Definition decode2 (s1 s2 s3 : N) : option (list Byte.byte) :=
  match Byte.of_N (s1 * 4 + s2 / 16), Byte.of_N ((s2 mod 16) * 16 + s3 / 4) with
  | Some a, Some b => Some [a; b]
  | _, _ => None
  end.

Definition decode3 (s1 s2 s3 s4 : N) : option (list Byte.byte) :=
  match Byte.of_N (s1 * 4 + s2 / 16), Byte.of_N ((s2 mod 16) * 16 + s3 / 4),
        Byte.of_N ((s3 mod 4) * 64 + s4) with
  | Some a, Some b, Some c => Some [a; b; c]
  | _, _, _ => None
  end.

Fixpoint b64decode (s : string) : option (list Byte.byte) :=
  match s with
  | EmptyString => Some []
  | String c1 (String c2 (String c3 (String c4 rest))) =>
      match index c1, index c2 with
      | Some s1, Some s2 =>
          match index c3 with
          | Some s3 =>
              match index c4 with
              | Some s4 =>
                  match decode3 s1 s2 s3 s4, b64decode rest with
                  | Some g, Some l => Some (g ++ l)
                  | _, _ => None
                  end
              | None =>
                  if is_pad c4 && is_empty rest then decode2 s1 s2 s3 else None
              end
          | None =>
              if is_pad c3 && is_pad c4 && is_empty rest then decode1 s1 s2 else None
          end
      | _, _ => None
      end
  | _ => None
  end.

End Base64Decode.

(** ** Reading the nested shape item by item *)

(** An item whose [content] can be iterated: it is absent, a list or a
    string. *)
Definition readable (item : pyval) : Prop :=
  match lookup_attr item "content" with
  | None | Some (VList _) | Some (VStr _) => True
  | Some _ => False
  end.

(** [part] is the first text-typed part met when the items are read in
    order: the items before the one that holds it can all be iterated and
    hold no text-typed part. *)
Definition first_text_reached (items : list pyval) (part : pyval) : Prop :=
  exists before item after,
    items = before ++ item :: after
    /\ Forall (fun i => readable i /\ find text_typed (content_of i) = None) before
    /\ readable item
    /\ find text_typed (content_of item) = Some part.

(** * Properties *)

(** ** The response parser *)

Lemma text_typed_default (part : pyval) :
  in_text_types (getattr_default part "type" (VStr EmptyString)) = text_typed part.
Proof.
  unfold getattr_default, text_typed.
  destruct (lookup_attr part "type"); reflexivity.
Qed.

(** The inner loop stops at the first text-typed part. *)
Lemma scan_parts_find (parts : list pyval) :
  scan_parts parts =
  match find text_typed parts with
  | None => Returns None
  | Some part =>
      match lookup_attr part "text" with
      | Some (VStr t) => Returns (Some (PyStr.strip t))
      | Some _ => Raises (Exception "AttributeError" "strip")
      | None => Raises (Exception "AttributeError" "text")
      end
  end.
Proof.
  induction parts as [|part rest IH]; simpl; [reflexivity|].
  rewrite text_typed_default.
  destruct (text_typed part); [|exact IH].
  unfold getattr.
  destruct (lookup_attr part "text") as [[| | | |]|]; reflexivity.
Qed.

Lemma find_chars_none (s : string) :
  find text_typed (map VStr (PyStr.chars s)) = None.
Proof.
  induction s as [|c r IH]; simpl; [reflexivity|exact IH].
Qed.

(** Whenever the content of an item can be iterated, the loop sees in it
    the same first text-typed part as in the list of its parts. *)
Lemma iterate_content_find (item : pyval) (parts : list pyval) :
  iterate (getattr_default item "content" (VList [])) = Returns parts ->
  find text_typed parts = find text_typed (content_of item).
Proof.
  unfold getattr_default, content_of, list_of.
  destruct (lookup_attr item "content") as [[| s | | l |]|]; simpl; intros H;
    try discriminate; injection H as <-; try reflexivity.
  apply find_chars_none.
Qed.

Lemma find_app {A} (f : A -> bool) (l1 l2 : list A) :
  find f (l1 ++ l2) =
  match find f l1 with Some x => Some x | None => find f l2 end.
Proof.
  induction l1 as [|a l1 IH]; simpl; [reflexivity|].
  destruct (f a); [reflexivity|exact IH].
Qed.

(** A scan of the items that does not raise gives what a scan of all
    their parts, laid end to end, gives. *)
Lemma scan_items_flat (items : list pyval) (r : option string) :
  scan_items items = Returns r ->
  scan_parts (flat_map content_of items) = Returns r.
Proof.
  induction items as [|item rest IH]; simpl; intros H; [exact H|].
  destruct (iterate (getattr_default item "content" (VList []))) as [parts|e] eqn:Hit;
    [|discriminate].
  apply iterate_content_find in Hit.
  rewrite scan_parts_find in H.
  rewrite scan_parts_find, find_app, <- Hit.
  destruct (find text_typed parts) as [part|].
  - destruct (lookup_attr part "text") as [[| | | |]|]; exact H.
  - rewrite <- scan_parts_find. apply IH, H.
Qed.

(** On a well-formed nested shape the scan of the items never stops on a
    value that cannot be iterated. *)
Lemma scan_items_well_formed (items : list pyval) :
  Forall (fun item => list_or_absent (lookup_attr item "content")) items ->
  scan_items items = scan_parts (flat_map content_of items).
Proof.
  induction 1 as [|item rest Hitem _ IH]; simpl; [reflexivity|].
  assert (Hit : iterate (getattr_default item "content" (VList []))
                = Returns (content_of item)).
  { unfold getattr_default, content_of, list_of.
    destruct (lookup_attr item "content") as [[| | | |]|];
      simpl in Hitem; try contradiction; reflexivity. }
  rewrite Hit, IH, !scan_parts_find, find_app.
  destruct (find text_typed (content_of item)) as [part|]; [|reflexivity].
  destruct (lookup_attr part "text") as [[| | | |]|]; reflexivity.
Qed.

(** Nothing raised inside the [try] block escapes [except Exception]. *)
Lemma scan_parts_raises (parts : list pyval) (e : exn) :
  scan_parts parts = Raises e -> is_Exception e = true.
Proof.
  rewrite scan_parts_find.
  destruct (find text_typed parts) as [part|]; [|discriminate].
  destruct (lookup_attr part "text") as [[| | | |]|]; intros H;
    try discriminate; injection H as <-; reflexivity.
Qed.

Lemma scan_items_raises (items : list pyval) (e : exn) :
  scan_items items = Raises e -> is_Exception e = true.
Proof.
  induction items as [|item rest IH]; simpl; [discriminate|].
  destruct (iterate (getattr_default item "content" (VList []))) as [parts|e'] eqn:Hit.
  - destruct (scan_parts parts) as [[s|]|e'] eqn:Hparts; intros H.
    + discriminate.
    + apply IH, H.
    + injection H as <-. apply (scan_parts_raises _ _ Hparts).
  - intros H. injection H as <-.
    unfold iterate in Hit.
    destruct (getattr_default item "content" (VList [])); try discriminate;
      injection Hit as <-; reflexivity.
Qed.

Lemma extract_text_try_raises (resp : pyobj) (e : exn) :
  extract_text_try resp = Raises e -> is_Exception e = true.
Proof.
  unfold extract_text_try, hasattr, getattr.
  destruct (lookup_attr (VObj resp) "output_text") as [v|].
  - destruct v; simpl; intros H; try discriminate; injection H as <-; reflexivity.
  - destruct (iterate (getattr_default (VObj resp) "output" (VList []))) as [items|e'] eqn:Hit.
    + apply scan_items_raises.
    + intros H. injection H as <-.
      unfold iterate in Hit.
      destruct (getattr_default (VObj resp) "output" (VList [])); try discriminate;
        injection Hit as <-; reflexivity.
Qed.

(** [extract_text] always returns. *)
Lemma extract_text_total (resp : pyobj) :
  exists s, extract_text resp = Returns s.
Proof.
  unfold extract_text.
  destruct (extract_text_try resp) as [[s|]|e] eqn:H; eauto.
  rewrite (extract_text_try_raises _ _ H). eauto.
Qed.

(** With a direct text field that holds a string, its stripped value. *)
Lemma extract_text_direct (resp : pyobj) (s : string) :
  lookup_attr (VObj resp) "output_text" = Some (VStr s) ->
  extract_text resp = Returns (PyStr.strip s).
Proof.
  intros H. unfold extract_text, extract_text_try, hasattr, getattr.
  rewrite H. reflexivity.
Qed.

(** With a direct text field that holds anything else, the stringified
    response. *)
Lemma extract_text_direct_not_str (resp : pyobj) (v : pyval) :
  lookup_attr (VObj resp) "output_text" = Some v ->
  (forall s, v <> VStr s) ->
  extract_text resp = Returns (obj_str resp).
Proof.
  intros H Hv. unfold extract_text, extract_text_try, hasattr, getattr.
  rewrite H.
  destruct v; try reflexivity.
  exfalso. apply (Hv s). reflexivity.
Qed.

Lemma spec_first_text_part_scan (resp : pyobj) (r : option string) :
  scan_parts (spec_content_parts resp) = Returns r ->
  r = option_map PyStr.strip (spec_first_text_part resp).
Proof.
  rewrite scan_parts_find. unfold spec_first_text_part.
  destruct (find text_typed (spec_content_parts resp)) as [part|].
  - destruct (lookup_attr part "text") as [[| | | |]|]; intros H;
      try discriminate; injection H as <-; reflexivity.
  - intros H. injection H as <-. reflexivity.
Qed.

Lemma spec_extract_text_no_direct (resp : pyobj) :
  lookup_attr (VObj resp) "output_text" = None ->
  spec_extract_text resp =
  match option_map PyStr.strip (spec_first_text_part resp) with
  | Some s => s
  | None => obj_str resp
  end.
Proof.
  intros H. unfold spec_extract_text, spec_direct_text. rewrite H.
  destruct (spec_first_text_part resp); reflexivity.
Qed.

(** Without a direct text field and with a well-formed nested shape, the
    stripped text of the first text-typed part, or the stringified
    response when there is no such text. *)
Lemma extract_text_nested (resp : pyobj) :
  lookup_attr (VObj resp) "output_text" = None ->
  nested_well_formed resp ->
  extract_text resp = Returns (spec_extract_text resp).
Proof.
  intros H [Hout Hitems].
  rewrite (spec_extract_text_no_direct _ H).
  unfold extract_text, extract_text_try, hasattr. rewrite H.
  assert (Hit : iterate (getattr_default (VObj resp) "output" (VList []))
                = Returns (list_of (lookup_attr (VObj resp) "output"))).
  { unfold getattr_default, list_of.
    destruct (lookup_attr (VObj resp) "output") as [[| | | |]|];
      simpl in Hout; try contradiction; reflexivity. }
  rewrite Hit, (scan_items_well_formed _ Hitems).
  change (flat_map content_of (list_of (lookup_attr (VObj resp) "output")))
    with (spec_content_parts resp).
  destruct (scan_parts (spec_content_parts resp)) as [r|e] eqn:Hscan.
  - rewrite (spec_first_text_part_scan _ _ Hscan).
    destruct (spec_first_text_part resp); reflexivity.
  - rewrite (scan_parts_raises _ _ Hscan).
    rewrite scan_parts_find in Hscan. unfold spec_first_text_part.
    destruct (find text_typed (spec_content_parts resp)) as [part|]; [|discriminate].
    destruct (lookup_attr part "text") as [[| | | |]|]; try discriminate; reflexivity.
Qed.

(** Whatever the response, the result is the one the specification
    names or the stringified response. *)
Lemma extract_text_spec_or_str (resp : pyobj) :
  extract_text resp = Returns (spec_extract_text resp)
  \/ extract_text resp = Returns (obj_str resp).
Proof.
  destruct (lookup_attr (VObj resp) "output_text") as [v|] eqn:H.
  - destruct v;
      try (right; apply (extract_text_direct_not_str _ _ H); intros; discriminate).
    left. rewrite (extract_text_direct _ _ H).
    unfold spec_extract_text, spec_direct_text. rewrite H. reflexivity.
  - rewrite (spec_extract_text_no_direct _ H).
    unfold extract_text, extract_text_try, hasattr. rewrite H.
    destruct (iterate (getattr_default (VObj resp) "output" (VList []))) as [items|e] eqn:Hit.
    + destruct (scan_items items) as [r|e] eqn:Hscan.
      * left. apply scan_items_flat in Hscan.
        assert (Hitems : items = list_of (lookup_attr (VObj resp) "output")
                         \/ find text_typed (flat_map content_of items) = None
                            /\ list_of (lookup_attr (VObj resp) "output") = []).
        { unfold getattr_default, list_of in *.
          destruct (lookup_attr (VObj resp) "output") as [[| s | | l |]|];
            simpl in Hit; try discriminate; injection Hit as <-; auto.
          right. split; [|reflexivity].
          clear. induction s as [|c r IH]; simpl; [reflexivity|exact IH]. }
        destruct Hitems as [->|[Hnone Hnil]].
        -- change (flat_map content_of (list_of (lookup_attr (VObj resp) "output")))
             with (spec_content_parts resp) in Hscan.
           rewrite (spec_first_text_part_scan _ _ Hscan).
    destruct (spec_first_text_part resp); reflexivity.
        -- rewrite scan_parts_find, Hnone in Hscan. injection Hscan as <-.
           unfold spec_first_text_part, spec_content_parts. rewrite Hnil. reflexivity.
      * right. rewrite (scan_items_raises _ _ Hscan). reflexivity.
    + right.
      assert (He : is_Exception e = true).
      { unfold iterate in Hit.
        destruct (getattr_default (VObj resp) "output" (VList [])); try discriminate;
          injection Hit as <-; reflexivity. }
      rewrite He. reflexivity.
Qed.

(** *** The nested shape when it is not well formed *)

Lemma readable_iterate (item : pyval) :
  readable item ->
  exists parts,
    iterate (getattr_default item "content" (VList [])) = Returns parts
    /\ find text_typed parts = find text_typed (content_of item).
Proof.
  unfold readable, getattr_default, content_of, list_of.
  destruct (lookup_attr item "content") as [[| s | | l |]|]; simpl; intros H;
    try contradiction; eexists; (split; [reflexivity|]); try reflexivity.
  apply find_chars_none.
Qed.

Lemma iterate_readable (item : pyval) (parts : list pyval) :
  iterate (getattr_default item "content" (VList [])) = Returns parts ->
  readable item.
Proof.
  unfold readable, getattr_default.
  destruct (lookup_attr item "content") as [[| | | |]|]; simpl; intros H;
    try discriminate H; exact I.
Qed.

(** What the scan gives once it has met its first text-typed part. *)
Lemma scan_items_reached (items : list pyval) (part : pyval) :
  first_text_reached items part ->
  scan_items items =
  match lookup_attr part "text" with
  | Some (VStr t) => Returns (Some (PyStr.strip t))
  | Some _ => Raises (Exception "AttributeError" "strip")
  | None => Raises (Exception "AttributeError" "text")
  end.
Proof.
  intros (before & item & after & -> & Hbefore & Hitem & Hfind).
  induction Hbefore as [|i before [Hi Hnone] _ IH]; cbn [app scan_items].
  - destruct (readable_iterate item Hitem) as (parts & -> & Hparts).
    rewrite scan_parts_find, Hparts, Hfind.
    destruct (lookup_attr part "text") as [[| | | |]|]; reflexivity.
  - destruct (readable_iterate i Hi) as (parts & -> & Hparts).
    rewrite scan_parts_find, Hparts, Hnone. exact IH.
Qed.

(** A scan that returns a text has met a first text-typed part. *)
Lemma scan_items_some (items : list pyval) (d : string) :
  scan_items items = Returns (Some d) ->
  exists part, first_text_reached items part.
Proof.
  induction items as [|item rest IH]; cbn [scan_items]; [discriminate|].
  destruct (iterate (getattr_default item "content" (VList []))) as [parts|e] eqn:Hit;
    [|discriminate].
  pose proof (iterate_readable item parts Hit) as Hitem.
  destruct (readable_iterate item Hitem) as (parts' & Hit' & Hparts).
  rewrite Hit in Hit'. injection Hit' as <-.
  rewrite scan_parts_find, Hparts.
  destruct (find text_typed (content_of item)) as [part|] eqn:Hfind.
  - intros _. exists part, [], item, rest. repeat split; auto.
  - intros H. destruct (IH H) as (part & before & item' & after & -> & Hb & Hi & Hf).
    exists part, (item :: before), item', after.
    repeat split; auto.
Qed.

Lemma scan_items_chars (s : string) :
  scan_items (map VStr (PyStr.chars s)) = Returns None.
Proof.
  induction s as [|c r IH]; [reflexivity|exact IH].
Qed.

(** Without a direct text field, the result is what the scan of the items
    of [output] returns, and the stringified response when that scan
    returns nothing, raises, or cannot start. *)
Lemma extract_text_no_direct (resp : pyobj) :
  lookup_attr (VObj resp) "output_text" = None ->
  extract_text resp =
  Returns match scan_items (list_of (lookup_attr (VObj resp) "output")) with
          | Returns (Some d) => d
          | _ => obj_str resp
          end.
Proof.
  intros H. unfold extract_text, extract_text_try, hasattr. rewrite H.
  unfold getattr_default, list_of.
  destruct (lookup_attr (VObj resp) "output") as [[| s | | l |]|];
    cbn [iterate]; try reflexivity.
  - rewrite scan_items_chars. reflexivity.
  - destruct (scan_items l) as [[d|]|e] eqn:Hscan; try reflexivity.
    rewrite (scan_items_raises l e Hscan). reflexivity.
Qed.

Lemma extract_text_reached (resp : pyobj) (part : pyval) :
  lookup_attr (VObj resp) "output_text" = None ->
  first_text_reached (list_of (lookup_attr (VObj resp) "output")) part ->
  extract_text resp =
  Returns match lookup_attr part "text" with
          | Some (VStr t) => PyStr.strip t
          | _ => obj_str resp
          end.
Proof.
  intros H Hreached.
  rewrite (extract_text_no_direct resp H), (scan_items_reached _ part Hreached).
  destruct (lookup_attr part "text") as [[| | | |]|]; reflexivity.
Qed.

Lemma extract_text_not_reached (resp : pyobj) :
  lookup_attr (VObj resp) "output_text" = None ->
  (forall part,
      ~ first_text_reached (list_of (lookup_attr (VObj resp) "output")) part) ->
  extract_text resp = Returns (obj_str resp).
Proof.
  intros H Hnone.
  rewrite (extract_text_no_direct resp H).
  destruct (scan_items (list_of (lookup_attr (VObj resp) "output")))
    as [[d|]|e] eqn:Hscan; try reflexivity.
  destruct (scan_items_some _ d Hscan) as [part Hpart].
  destruct (Hnone part Hpart).
Qed.

(** C5 (as amended).  [extract_text] never raises.  It returns the
    stripped direct text field when the response has that field and the
    field holds a string, and the stringified response when the field is
    there and holds anything else (the nested parts are then not looked
    at).  When the field is absent, the items of [output], if it is a list,
    are read in order up to the first text-typed part, as long as the
    [content] of each item can be iterated (it is absent, a list or a
    string): when such a part is reached, the result is its stripped text
    if that text is a string and the stringified response if not; when no
    such part is reached ([output] is absent or not a list, an item whose
    [content] cannot be iterated comes first, or there is no text-typed
    part), the result is the stringified response.  In particular, on a
    well-formed nested shape the result is the stripped text of the first
    text-typed part, or the stringified response when there is no such
    text. *)
Theorem extract_text_shapes (resp : pyobj) :
  (exists s, extract_text resp = Returns s)
  /\ (forall s, lookup_attr (VObj resp) "output_text" = Some (VStr s) ->
      extract_text resp = Returns (PyStr.strip s))
  /\ (forall v, lookup_attr (VObj resp) "output_text" = Some v ->
      (forall s, v <> VStr s) ->
      extract_text resp = Returns (obj_str resp))
  /\ (lookup_attr (VObj resp) "output_text" = None ->
      nested_well_formed resp ->
      extract_text resp =
      Returns match spec_first_text_part resp with
              | Some t => PyStr.strip t
              | None => obj_str resp
              end)
  /\ (extract_text resp = Returns (spec_extract_text resp)
      \/ extract_text resp = Returns (obj_str resp))
  /\ (forall part,
        lookup_attr (VObj resp) "output_text" = None ->
        first_text_reached (list_of (lookup_attr (VObj resp) "output")) part ->
        extract_text resp =
        Returns match lookup_attr part "text" with
                | Some (VStr t) => PyStr.strip t
                | _ => obj_str resp
                end)
  /\ (lookup_attr (VObj resp) "output_text" = None ->
      (forall part,
          ~ first_text_reached (list_of (lookup_attr (VObj resp) "output")) part) ->
      extract_text resp = Returns (obj_str resp)).
Proof.
  split; [apply extract_text_total|].
  split; [apply extract_text_direct|].
  split; [apply extract_text_direct_not_str|].
  split; [|split; [apply extract_text_spec_or_str|split]].
  - intros H Hwf. rewrite (extract_text_nested _ H Hwf).
    unfold spec_extract_text, spec_direct_text. rewrite H. reflexivity.
  - intros part H Hreached. apply (extract_text_reached resp part H Hreached).
  - apply extract_text_not_reached.
Qed.

Lemma extract_text_shapes_witness :
  extract_text Sample.chair = Returns "A 'red' chair near a window."
  /\ extract_text Sample.none_direct = Returns "Response(null)"
  /\ extract_text Sample.nested = Returns "Hi."
  /\ extract_text Sample.broken_tail = Returns "first"
  /\ extract_text Sample.broken_head = Returns "Response(head)".
Proof.
  split; [|split; [|split; [|split]]].
  - apply (proj1 (proj2 (extract_text_shapes Sample.chair))
             " A 'red' chair near a window. ").
    reflexivity.
  - apply (proj1 (proj2 (proj2 (extract_text_shapes Sample.none_direct))) VNone).
    + reflexivity.
    + intros s H. discriminate H.
  - apply (proj1 (proj2 (proj2 (proj2 (extract_text_shapes Sample.nested))))).
    + reflexivity.
    + split; [exact I|].
      repeat constructor.
  - apply (proj1 (proj2 (proj2 (proj2 (proj2 (proj2
             (extract_text_shapes Sample.broken_tail))))))
             (Sample.text_part (VStr " first "))).
    + reflexivity.
    + exists [], (Sample.message [Sample.text_part (VStr " first ")]),
        [Sample.broken_item].
      repeat split. constructor.
  - apply (proj2 (proj2 (proj2 (proj2 (proj2 (proj2
             (extract_text_shapes Sample.broken_head))))))).
    + reflexivity.
    + intros part (before & item & after & Heq & Hbefore & Hitem & _).
      destruct before as [|i before]; injection Heq as <- _.
      * exact Hitem.
      * inversion Hbefore as [|? ? [Hi _] _]. exact Hi.
Defined.

(** C5, as the specification words it, fails on a response whose direct
    text field is [None] while its nested shape holds text: the parser
    gives the stringified response, not the text of the first text-typed
    part. *)
Lemma extract_text_none_direct :
  spec_direct_text Sample.none_direct = None
  /\ spec_first_text_part Sample.none_direct = Some "hi"
  /\ spec_extract_text Sample.none_direct = "hi"
  /\ extract_text Sample.none_direct = Returns "Response(null)"
  /\ extract_text Sample.none_direct <> Returns (spec_extract_text Sample.none_direct).
Proof.
  repeat split; try reflexivity.
  intros H. discriminate H.
Qed.

(** ** The speech command *)

Lemma replace_empty_filter (c : ascii) (s : string) :
  list_ascii_of_string (PyStr.replace c EmptyString s) =
  filter (fun x => negb (Ascii.eqb x c)) (list_ascii_of_string s).
Proof.
  induction s as [|a r IH]; simpl; [reflexivity|].
  destruct (Ascii.eqb a c); simpl; rewrite IH; reflexivity.
Qed.

Lemma filter_filter {A} (f g : A -> bool) (l : list A) :
  filter f (filter g l) = filter (fun x => g x && f x) l.
Proof.
  induction l as [|a l IH]; simpl; [reflexivity|].
  destruct (g a); simpl; [destruct (f a)|]; rewrite IH; reflexivity.
Qed.

(** [speak] removes the quote characters and nothing else: what is left
    is the text without its quotes, in the same order. *)
Lemma safe_text_chars (text : string) :
  list_ascii_of_string (safe_text_of text) =
  filter (fun c => negb (is_quote c)) (list_ascii_of_string text).
Proof.
  unfold safe_text_of. rewrite !replace_empty_filter, filter_filter.
  apply filter_ext. intros c. unfold is_quote.
  destruct (Ascii.eqb c dquote), (Ascii.eqb c squote); reflexivity.
Qed.

(** ** The button callback *)

(** C7.  The callback prints, gives one pulse of 0.2 s, then puts one
    ["capture"] task at the tail of the queue; it returns, and it calls
    none of the capture, analysis and speech services. *)
Theorem button_pressed_ack_then_enqueue (channel : Z) (st : state) :
  result_of (button_pressed channel st) = Returns tt
  /\ trace_of (button_pressed channel st) =
     PrintCall [PStr " Button pressed! Queuing capture task..."]
       :: pulse 0.2 ++ [QueuePut (VStr "capture")]
  /\ pulses (trace_of (button_pressed channel st)) = [0.2%Q]
  /\ queue_puts (trace_of (button_pressed channel st)) = [VStr "capture"]
  /\ task_queue (state_of (button_pressed channel st)) = task_queue st ++ [VStr "capture"]
  /\ service_calls (trace_of (button_pressed channel st)) = [].
Proof.
  repeat split.
Qed.

(** ** One turn of the consumer loop *)

(** A task that is not ["capture"] costs one dequeue and one poll sleep. *)
Lemma skipped_turn (w : world) (st : state) (task : pyval) (q : list pyval) :
  task_queue st = task :: q ->
  is_capture task = false ->
  process_tasks_iteration w st =
  (Returns tt,
   {| task_queue := q;
      pin_level := pin_level st;
      gpio_channels := gpio_channels st;
      gpio_event_detect := gpio_event_detect st |},
   [QueueGet task; Sleep 0.1]).
Proof.
  intros Hq Htask.
  unfold process_tasks_iteration, bind, queue_poll, process_task.
  rewrite Hq, Htask. reflexivity.
Qed.

(** C10.  A task that is not ["capture"] is taken from the queue and
    dropped: the turn consists of the dequeue and the poll sleep, with no
    service call and no pulse, the pins stay as they were, and the loop
    goes on. *)
Theorem other_task_discarded (w : world) (st : state) (task : pyval) (q : list pyval) :
  task_queue st = task :: q ->
  is_capture task = false ->
  result_of (process_tasks_iteration w st) = Returns tt
  /\ trace_of (process_tasks_iteration w st) = [QueueGet task; Sleep 0.1]
  /\ service_calls (trace_of (process_tasks_iteration w st)) = []
  /\ pulses (trace_of (process_tasks_iteration w st)) = []
  /\ task_queue (state_of (process_tasks_iteration w st)) = q
  /\ pin_level (state_of (process_tasks_iteration w st)) = pin_level st
  /\ (forall rest,
        process_tasks (Poll w :: rest) st =
        (result_of (process_tasks rest (state_of (process_tasks_iteration w st))),
         state_of (process_tasks rest (state_of (process_tasks_iteration w st))),
         [QueueGet task; Sleep 0.1]
           ++ trace_of (process_tasks rest (state_of (process_tasks_iteration w st))))).
Proof.
  intros Hq Htask.
  pose proof (skipped_turn w st task q Hq Htask) as H.
  repeat split; try (rewrite H; reflexivity).
  intros rest. cbn [process_tasks]. rewrite H.
  cbn [result_of state_of trace_of fst snd].
  destruct (process_tasks rest _) as [[r st2] t2]. reflexivity.
Qed.

(** *** What [analyze_image] does, by the outcome of each external call *)

Section AnalyzeImage.

Variables (w : world) (st : state).

Lemma analyze_image_capture_raises (e : exn) :
  capture_raises w e ->
  analyze_image w st = (Raises e, st, capture_events).
Proof.
  unfold analyze_image, capture_image, subprocess_run_check, bind.
  intros [(code & Hw & Hcode & ->)|[Hw _]]; rewrite Hw; simpl.
  - apply Z.eqb_neq in Hcode. rewrite Hcode. reflexivity.
  - reflexivity.
Qed.

Lemma analyze_image_read_raises (e : exn) :
  fswebcam w = Exited 0 ->
  image_file w = Raises e ->
  analyze_image w st = (Raises e, st, read_events).
Proof.
  unfold analyze_image, capture_image, subprocess_run_check, to_data_url, lift, bind.
  intros Hcam Hfile. rewrite Hcam, Hfile. reflexivity.
Qed.

Lemma analyze_image_create_raises (bytes : list Byte.byte) (e : exn) :
  fswebcam w = Exited 0 ->
  image_file w = Returns bytes ->
  responses_create w = Raises e ->
  analyze_image w st = (Raises e, st, request_events bytes).
Proof.
  unfold analyze_image, capture_image, subprocess_run_check, to_data_url,
    client_responses_create, lift, bind.
  intros Hcam Hfile Hresp. rewrite Hcam, Hfile. simpl. rewrite Hresp. reflexivity.
Qed.

Lemma analyze_image_returns (bytes : list Byte.byte) (resp : pyobj) (description : string) :
  fswebcam w = Exited 0 ->
  image_file w = Returns bytes ->
  responses_create w = Returns resp ->
  extract_text resp = Returns description ->
  analyze_image w st =
  (Returns description, st,
   request_events bytes ++ [PrintCall [PStr " AI says:"; PStr description]]).
Proof.
  unfold analyze_image, capture_image, subprocess_run_check, to_data_url,
    client_responses_create, lift, bind.
  intros Hcam Hfile Hresp Htext. rewrite Hcam, Hfile. simpl.
  rewrite Hresp. simpl. rewrite Htext. reflexivity.
Qed.

End AnalyzeImage.

(** *** A processing cycle, by the outcome of [analyze_image] *)

Section Cycle.

Variables (w : world) (st : state) (q : list pyval) (pre : list event).

Hypothesis Hqueue : task_queue st = VStr "capture" :: q.

(** [analyze_image] raises an [Exception]: the handler prints it and
    gives the long pulse; nothing else happens before the poll sleep. *)
Lemma failed_cycle (e : exn) :
  (forall s, analyze_image w s = (Raises e, s, pre)) ->
  is_Exception e = true ->
  exists st',
    process_tasks_iteration w st =
    (Returns tt, st',
     QueueGet (VStr "capture")
       :: pre ++ PrintCall [PStr " Error:"; PExn e] :: pulse 1.0 ++ [Sleep 0.1])
    /\ after_cycle q st st'.
Proof.
  intros Han He.
  cbv beta iota delta [process_tasks_iteration bind queue_poll].
  rewrite Hqueue.
  cbv beta iota delta [process_task is_capture try_except_Exception bind].
  rewrite String.eqb_refl. cbv beta iota.
  rewrite Han. cbv beta iota. rewrite He.
  simpl. rewrite <- app_assoc.
  eexists. split; [reflexivity|].
  repeat split.
Qed.

(** [analyze_image] returns a description: the short pulse, then the
    print, then the speech command; what follows depends on [Popen]. *)
Lemma spoken_cycle (description : string) :
  (forall s, analyze_image w s = (Returns description, s, pre)) ->
  exists r st' tail,
    process_tasks_iteration w st =
    (r, st',
     QueueGet (VStr "capture")
       :: pre ++ pulse 0.5
       ++ PrintCall [PStr " Description:"; PStr description]
       :: Popen (espeak_command (safe_text_of description)) :: tail)
    /\ after_cycle q st st'
    /\ match popen w with
       | Returns _ =>
           r = Returns tt
           /\ tail = [PrintCall [PStr (" Speaking: " ++ safe_text_of description)%string];
                      Sleep 0.1]
       | Raises e =>
           if is_Exception e
           then r = Returns tt
                /\ tail = [PrintCall [PStr " Speech failed:"; PExn e]; Sleep 0.1]
           else r = Raises e /\ tail = []
       end.
Proof.
  intros Han.
  cbv beta iota delta [process_tasks_iteration bind queue_poll].
  rewrite Hqueue.
  cbv beta iota delta [process_task is_capture try_except_Exception bind].
  rewrite String.eqb_refl. cbv beta iota.
  rewrite Han.
  cbv beta iota delta [speak subprocess_Popen try_except_Exception bind lift emit].
  destruct (popen w) as [[]|e]; [|destruct (is_Exception e) eqn:He];
    simpl; try rewrite He; simpl; try rewrite <- app_assoc;
    do 3 eexists; (split; [reflexivity|]); repeat split.
Qed.

End Cycle.

Lemma capture_raises_Exception (w : world) (e : exn) :
  capture_raises w e -> is_Exception e = true.
Proof.
  intros [(code & _ & _ & ->)|[_ He]]; [reflexivity|exact He].
Qed.

(** C1.  When the capture step raises an error, the turn of the loop gives
    the long pulse (1.0 s) and no other, makes no call to the analysis
    service and none to the speech service, and returns. *)
Theorem capture_failure_long_pulse
  (w : world) (st : state) (q : list pyval) (e : exn) :
  task_queue st = VStr "capture" :: q ->
  capture_raises w e ->
  result_of (process_tasks_iteration w st) = Returns tt
  /\ pulses (trace_of (process_tasks_iteration w st)) = [1.0%Q]
  /\ analysis_calls (trace_of (process_tasks_iteration w st)) = []
  /\ speech_calls (trace_of (process_tasks_iteration w st)) = []
  /\ trace_of (process_tasks_iteration w st) =
     QueueGet (VStr "capture")
       :: capture_events
       ++ PrintCall [PStr " Error:"; PExn e] :: pulse 1.0 ++ [Sleep 0.1].
Proof.
  intros Hq Hcap.
  destruct (failed_cycle w st q _ Hq e
              (fun s => analyze_image_capture_raises w s e Hcap)
              (capture_raises_Exception w e Hcap)) as (st' & Hrun & _).
  rewrite Hrun. repeat split.
Qed.

Lemma capture_failure_long_pulse_witness :
  pulses (trace_of (process_tasks_iteration Sample.camera_down
                      (Sample.ready [VStr "capture"]))) = [1.0%Q]
  /\ analysis_calls (trace_of (process_tasks_iteration Sample.camera_down
                                 (Sample.ready [VStr "capture"]))) = [].
Proof.
  destruct (capture_failure_long_pulse Sample.camera_down
              (Sample.ready [VStr "capture"]) [] (CalledProcessError 1))
    as (_ & Hpulse & Hcalls & _ & _).
  - reflexivity.
  - left. exists 1%Z. repeat split. discriminate.
  - split; assumption.
Defined.

(** C2.  When the capture succeeds and the call to the analysis service
    raises an error, the turn gives the long pulse and no other, never
    calls the speech service, and drops the task: one capture and one
    analysis call were made (no retry), nothing is put on the queue (no
    requeue), and the queue is left without the task. *)
Theorem analysis_failure_no_speech
  (w : world) (st : state) (q : list pyval) (bytes : list Byte.byte) (e : exn) :
  task_queue st = VStr "capture" :: q ->
  fswebcam w = Exited 0 ->
  image_file w = Returns bytes ->
  responses_create w = Raises e ->
  is_Exception e = true ->
  result_of (process_tasks_iteration w st) = Returns tt
  /\ pulses (trace_of (process_tasks_iteration w st)) = [1.0%Q]
  /\ speech_calls (trace_of (process_tasks_iteration w st)) = []
  /\ length (capture_calls (trace_of (process_tasks_iteration w st))) = 1%nat
  /\ length (analysis_calls (trace_of (process_tasks_iteration w st))) = 1%nat
  /\ queue_gets (trace_of (process_tasks_iteration w st)) = [VStr "capture"]
  /\ queue_puts (trace_of (process_tasks_iteration w st)) = []
  /\ task_queue (state_of (process_tasks_iteration w st)) = q
  /\ trace_of (process_tasks_iteration w st) =
     QueueGet (VStr "capture")
       :: request_events bytes
       ++ PrintCall [PStr " Error:"; PExn e] :: pulse 1.0 ++ [Sleep 0.1].
Proof.
  intros Hq Hcam Hfile Hresp He.
  destruct (failed_cycle w st q _ Hq e
              (fun s => analyze_image_create_raises w s bytes e Hcam Hfile Hresp) He)
    as (st' & Hrun & Hq' & _).
  rewrite Hrun. repeat split. exact Hq'.
Qed.

Lemma analysis_failure_no_speech_witness :
  pulses (trace_of (process_tasks_iteration Sample.network_down
                      (Sample.ready [VStr "capture"]))) = [1.0%Q]
  /\ speech_calls (trace_of (process_tasks_iteration Sample.network_down
                               (Sample.ready [VStr "capture"]))) = [].
Proof.
  destruct (analysis_failure_no_speech Sample.network_down
              (Sample.ready [VStr "capture"]) [] Sample.jpeg
              (Exception "APIConnectionError" "Connection error."))
    as (_ & Hpulse & Hspeech & _); try reflexivity.
  split; assumption.
Defined.

Lemma other_task_discarded_witness :
  trace_of (process_tasks_iteration Sample.camera_down
              (Sample.ready [VStr "shutdown"; VStr "capture"]))
  = [QueueGet (VStr "shutdown"); Sleep 0.1]
  /\ task_queue (state_of (process_tasks_iteration Sample.camera_down
                             (Sample.ready [VStr "shutdown"; VStr "capture"])))
     = [VStr "capture"].
Proof.
  destruct (other_task_discarded Sample.camera_down
              (Sample.ready [VStr "shutdown"; VStr "capture"])
              (VStr "shutdown") [VStr "capture"])
    as (_ & Htrace & _ & _ & Hq & _); try reflexivity.
  split; assumption.
Defined.

(** C3, as the specification words it, fails: a response whose text is
    empty, or that holds no text at all, does not end the cycle in Failed.
    The short pulse fires, the long one does not, and the speech service
    is called, with the empty string or with the stringified response. *)
Lemma empty_result_is_spoken :
  extract_text Sample.empty_text = Returns EmptyString
  /\ pulses (trace_of (process_tasks_iteration (Sample.answers Sample.empty_text)
                         (Sample.ready [VStr "capture"]))) = [0.5%Q]
  /\ speech_calls (trace_of (process_tasks_iteration (Sample.answers Sample.empty_text)
                               (Sample.ready [VStr "capture"])))
     = [espeak_command EmptyString]
  /\ ~ cycle_failed (trace_of (process_tasks_iteration (Sample.answers Sample.empty_text)
                                 (Sample.ready [VStr "capture"])))
  /\ speech_calls (trace_of (process_tasks_iteration (Sample.answers Sample.no_text)
                               (Sample.ready [VStr "capture"])))
     = [espeak_command "Response(none)"]
  /\ ~ cycle_failed (trace_of (process_tasks_iteration (Sample.answers Sample.no_text)
                                 (Sample.ready [VStr "capture"]))).
Proof.
  repeat split; try reflexivity.
  - intros [_ H]. discriminate H.
  - intros [_ H]. discriminate H.
Qed.

(** C3 (as amended).  When the capture succeeds and the analysis service
    returns a response, also one whose text is empty or absent, the cycle
    does not end in Failed: the short pulse (0.5 s) fires and no other, and
    the speech service is called once, with the extracted text without its
    quotes; that text is empty when the direct text field is empty or
    blank.  Only an exception leads to Failed. *)
Theorem empty_result_success_path
  (w : world) (st : state) (q : list pyval) (bytes : list Byte.byte) (resp : pyobj) :
  task_queue st = VStr "capture" :: q ->
  fswebcam w = Exited 0 ->
  image_file w = Returns bytes ->
  responses_create w = Returns resp ->
  ~ cycle_failed (trace_of (process_tasks_iteration w st))
  /\ pulses (trace_of (process_tasks_iteration w st)) = [0.5%Q]
  /\ (exists description,
        extract_text resp = Returns description
        /\ speech_calls (trace_of (process_tasks_iteration w st))
           = [espeak_command (safe_text_of description)])
  /\ (forall s,
        lookup_attr (VObj resp) "output_text" = Some (VStr s) ->
        PyStr.strip s = EmptyString ->
        speech_calls (trace_of (process_tasks_iteration w st))
        = [espeak_command EmptyString]).
Proof.
  intros Hq Hcam Hfile Hresp.
  destruct (extract_text_total resp) as [d Hd].
  destruct (spoken_cycle w st q _ Hq d
              (fun s => analyze_image_returns w s bytes resp d Hcam Hfile Hresp Hd))
    as (r & st' & tail & Hrun & _ & Htail).
  assert (Hspeech : speech_calls tail = [] /\ pulses tail = []).
  { destruct (popen w) as [[]|e]; [|destruct (is_Exception e)];
      destruct Htail as [_ ->]; split; reflexivity. }
  destruct Hspeech as [Hs Hp].
  rewrite Hrun. unfold trace_of. simpl. rewrite Hs, Hp.
  split; [intros [_ H]; discriminate H|].
  split; [reflexivity|].
  split; [exists d; split; [exact Hd|reflexivity]|].
  intros s Hattr Hstrip.
  rewrite (extract_text_direct _ _ Hattr), Hstrip in Hd.
  injection Hd as <-. reflexivity.
Qed.

Lemma empty_result_success_path_witness :
  pulses (trace_of (process_tasks_iteration (Sample.answers Sample.empty_text)
                      (Sample.ready [VStr "capture"]))) = [0.5%Q]
  /\ speech_calls (trace_of (process_tasks_iteration (Sample.answers Sample.empty_text)
                               (Sample.ready [VStr "capture"])))
     = [espeak_command EmptyString].
Proof.
  destruct (empty_result_success_path (Sample.answers Sample.empty_text)
              (Sample.ready [VStr "capture"]) [] Sample.jpeg Sample.empty_text)
    as (_ & Hpulse & _ & Hempty); try reflexivity.
  split; [exact Hpulse|].
  apply (Hempty EmptyString); reflexivity.
Defined.

(** C4.  When the capture and the analysis both succeed, the trace of the
    turn is: some events with no pulse and no speech call, then the short
    pulse (the motor pin high, 0.5 s, the motor pin low), then the print of
    the description, then the call to the speech service, then events with
    no pulse and no speech call.  The command given to [Popen] is the word
    [espeak], a space, a double quote, the spoken text, a double quote and
    the rest of the pipeline, and the spoken text is the description
    returned by [analyze_image] with its double and single quotes removed,
    every other character kept, in order. *)
Theorem success_pulse_before_speech
  (w : world) (st : state) (q : list pyval) (bytes : list Byte.byte) (resp : pyobj) :
  task_queue st = VStr "capture" :: q ->
  fswebcam w = Exited 0 ->
  image_file w = Returns bytes ->
  responses_create w = Returns resp ->
  exists description spoken before after,
    extract_text resp = Returns description
    /\ trace_of (process_tasks_iteration w st) =
       before
         ++ [GpioOutput 29 HIGH; Sleep 0.5; GpioOutput 29 LOW;
             PrintCall [PStr " Description:"; PStr description];
             Popen ("espeak "
                      ++ String "034" (spoken
                      ++ String "034" " --stdout | aplay -D plughw:2,0"))%string]
         ++ after
    /\ pulses before = [] /\ speech_calls before = []
    /\ pulses after = [] /\ speech_calls after = []
    /\ list_ascii_of_string spoken
       = filter (fun c => negb (Ascii.eqb c "034" || Ascii.eqb c "039"))
           (list_ascii_of_string description)
    /\ spoken = safe_text_of description
    /\ speech_calls (trace_of (process_tasks_iteration w st)) =
       [("espeak "
           ++ String "034" (spoken
           ++ String "034" " --stdout | aplay -D plughw:2,0"))%string].
Proof.
  intros Hq Hcam Hfile Hresp.
  destruct (extract_text_total resp) as [d Hd].
  destruct (spoken_cycle w st q _ Hq d
              (fun s => analyze_image_returns w s bytes resp d Hcam Hfile Hresp Hd))
    as (r & st' & tail & Hrun & _ & Htail).
  assert (Htail' : pulses tail = [] /\ speech_calls tail = []).
  { destruct (popen w) as [[]|e]; [|destruct (is_Exception e)];
      destruct Htail as [_ ->]; split; reflexivity. }
  destruct Htail' as [Hp Hs].
  exists d, (safe_text_of d).
  eexists (QueueGet (VStr "capture") :: _), tail.
  split; [exact Hd|].
  split; [rewrite Hrun; reflexivity|].
  split; [reflexivity|]. split; [reflexivity|].
  split; [exact Hp|]. split; [exact Hs|].
  split; [|split; [reflexivity|]].
  - rewrite safe_text_chars. apply filter_ext. intros c. reflexivity.
  - rewrite Hrun. cbn. rewrite Hs. reflexivity.
Qed.

Lemma success_pulse_before_speech_witness :
  exists before after,
    trace_of (process_tasks_iteration (Sample.answers Sample.chair)
                (Sample.ready [VStr "capture"])) =
    before
      ++ [GpioOutput 29 HIGH; Sleep 0.5; GpioOutput 29 LOW;
          PrintCall [PStr " Description:"; PStr "A 'red' chair near a window."];
          Popen ("espeak "
                   ++ String "034" ("A red chair near a window."
                   ++ String "034" " --stdout | aplay -D plughw:2,0"))%string]
      ++ after
    /\ speech_calls before = [].
Proof.
  destruct (success_pulse_before_speech (Sample.answers Sample.chair)
              (Sample.ready [VStr "capture"]) [] Sample.jpeg Sample.chair)
    as (d & spoken & before & after & Hd & Htrace & _ & Hbefore & _ & _ & _ & Hspoken & _);
    try reflexivity.
  injection Hd as <-. subst spoken.
  exists before, after. split; [exact Htrace|exact Hbefore].
Defined.

(** ** The queue *)

Lemma queue_puts_app (t1 t2 : list event) :
  queue_puts (t1 ++ t2) = queue_puts t1 ++ queue_puts t2.
Proof.
  induction t1 as [|e t1 IH]; simpl; [reflexivity|].
  destruct e; simpl; rewrite IH; reflexivity.
Qed.

Lemma queue_gets_app (t1 t2 : list event) :
  queue_gets (t1 ++ t2) = queue_gets t1 ++ queue_gets t2.
Proof.
  induction t1 as [|e t1 IH]; simpl; [reflexivity|].
  destruct e; simpl; rewrite IH; reflexivity.
Qed.

Section Quiet.

Context {A B : Type}.

Lemma quiet_ret (a : A) : queue_quiet (ret a).
Proof. intros s. repeat split. Qed.

Lemma quiet_raise (e : exn) : queue_quiet (@raise A e).
Proof. intros s. repeat split. Qed.

Lemma quiet_lift (o : outcome A) : queue_quiet (lift o).
Proof. intros s. repeat split. Qed.

Lemma quiet_bind (m : M A) (f : A -> M B) :
  queue_quiet m -> (forall a, queue_quiet (f a)) -> queue_quiet (bind m f).
Proof.
  intros Hm Hf s. specialize (Hm s). unfold bind.
  destruct (m s) as [[[a|e] s1] t1]; unfold state_of, trace_of in *; simpl in *.
  - specialize (Hf a s1). unfold state_of, trace_of in Hf.
    destruct (f a s1) as [[r s2] t2]; simpl in *.
    destruct Hm as (Hq & Hp & Hg), Hf as (Hq' & Hp' & Hg').
    rewrite queue_puts_app, queue_gets_app, Hp, Hp', Hg, Hg', Hq', Hq.
    repeat split.
  - exact Hm.
Qed.

Lemma quiet_try (m : M A) (h : exn -> M A) :
  queue_quiet m -> (forall e, queue_quiet (h e)) ->
  queue_quiet (try_except_Exception m h).
Proof.
  intros Hm Hh s. specialize (Hm s). unfold try_except_Exception.
  destruct (m s) as [[[a|e] s1] t1]; unfold state_of, trace_of in *; simpl in *.
  - exact Hm.
  - destruct (is_Exception e); [|exact Hm].
    specialize (Hh e s1). unfold state_of, trace_of in Hh.
    destruct (h e s1) as [[r s2] t2]; simpl in *.
    destruct Hm as (Hq & Hp & Hg), Hh as (Hq' & Hp' & Hg').
    rewrite queue_puts_app, queue_gets_app, Hp, Hp', Hg, Hg', Hq', Hq.
    repeat split.
Qed.

End Quiet.

Lemma quiet_emit (e : event) : is_queue_event e = false -> queue_quiet (emit e).
Proof.
  intros He s. destruct e; try discriminate He; repeat split.
Qed.

Lemma quiet_GPIO_output (pin : Z) (l : level) : queue_quiet (GPIO_output pin l).
Proof. intros s. repeat split. Qed.

Create HintDb quiet.
#[local] Hint Resolve quiet_ret quiet_raise quiet_lift quiet_GPIO_output : quiet.

Ltac quiet :=
  repeat first
    [ solve [auto with quiet]
    | apply quiet_bind
    | apply quiet_try
    | apply quiet_emit; reflexivity
    | match goal with |- forall _, _ => intro end ].

Lemma quiet_vibrate (d : Q) : queue_quiet (vibrate d).
Proof. unfold vibrate, sleep. quiet. Qed.

Lemma quiet_analyze_image (w : world) : queue_quiet (analyze_image w).
Proof.
  unfold analyze_image, capture_image, subprocess_run_check, to_data_url,
    client_responses_create, print.
  quiet.
  destruct (fswebcam w) as [code|e]; [destruct (Z.eqb code 0)|]; quiet.
Qed.

Lemma quiet_speak (w : world) (text : string) : queue_quiet (speak w text).
Proof. unfold speak, subprocess_Popen, print. quiet. Qed.

#[local] Hint Resolve quiet_vibrate quiet_analyze_image quiet_speak : quiet.

(** Processing a task never touches the queue. *)
Lemma quiet_process_task (w : world) (task : pyval) : queue_quiet (process_task w task).
Proof.
  unfold process_task, print.
  destruct (is_capture task); quiet.
Qed.

(** One turn of the loop takes the head of the queue, if there is one, at
    its very start, processes it, and puts nothing back, however the
    processing ends. *)
Lemma iteration_queue (w : world) (st : state) :
  task_queue (state_of (process_tasks_iteration w st)) = skipn 1 (task_queue st)
  /\ queue_puts (trace_of (process_tasks_iteration w st)) = []
  /\ queue_gets (trace_of (process_tasks_iteration w st)) = firstn 1 (task_queue st)
  /\ exists st1,
       task_queue st1 = skipn 1 (task_queue st)
       /\ result_of (process_tasks_iteration w st) =
          match task_queue st with
          | [] => Returns tt
          | task :: _ => result_of (process_task w task st1)
          end
       /\ trace_of (process_tasks_iteration w st) =
          match task_queue st with
          | [] => [Sleep 0.1]
          | task :: _ =>
              QueueGet task :: trace_of (process_task w task st1)
                ++ match result_of (process_task w task st1) with
                   | Returns _ => [Sleep 0.1]
                   | Raises _ => []
                   end
          end.
Proof.
  unfold process_tasks_iteration, bind, queue_poll.
  destruct (task_queue st) as [|task q] eqn:Hq.
  - simpl. repeat split; try exact Hq. exists st. repeat split. exact Hq.
  - set (st1 := {| task_queue := q; pin_level := pin_level st;
                   gpio_channels := gpio_channels st;
                   gpio_event_detect := gpio_event_detect st |}).
    destruct (quiet_process_task w task st1) as (Hq1 & Hp1 & Hg1).
    unfold state_of, trace_of, result_of in *.
    destruct (process_task w task st1) as [[[[]|e] s2] t2] eqn:Hrun; simpl in *.
    + rewrite queue_puts_app, queue_gets_app, Hp1, Hg1, Hq1.
      repeat split. exists st1. rewrite Hrun. repeat split.
    + rewrite Hp1, Hg1, Hq1. repeat split. exists st1. rewrite Hrun.
      simpl. rewrite app_nil_r. repeat split.
Qed.

(** *** The loop over a schedule *)

(** The callback runs, then the rest of the schedule. *)
Lemma process_tasks_press (channel : Z) (rest : list action) (st : state) :
  process_tasks (Press channel :: rest) st =
  (result_of (process_tasks rest (state_of (button_pressed channel st))),
   state_of (process_tasks rest (state_of (button_pressed channel st))),
   trace_of (button_pressed channel st)
     ++ trace_of (process_tasks rest (state_of (button_pressed channel st)))).
Proof.
  cbn [process_tasks]. unfold result_of, state_of, trace_of.
  destruct (button_pressed channel st) as [[r0 st1] t1]. cbn [fst snd].
  destruct (process_tasks rest st1) as [[r st2] t2]. reflexivity.
Qed.

(** A turn that returns is followed by the rest of the schedule. *)
Lemma process_tasks_poll (w : world) (rest : list action) (st : state) :
  result_of (process_tasks_iteration w st) = Returns tt ->
  process_tasks (Poll w :: rest) st =
  (result_of (process_tasks rest (state_of (process_tasks_iteration w st))),
   state_of (process_tasks rest (state_of (process_tasks_iteration w st))),
   trace_of (process_tasks_iteration w st)
     ++ trace_of (process_tasks rest (state_of (process_tasks_iteration w st)))).
Proof.
  cbn [process_tasks]. unfold result_of, state_of, trace_of.
  destruct (process_tasks_iteration w st) as [[[[]|e] st1] t1]; cbn [fst snd];
    [|discriminate].
  intros _. destruct (process_tasks rest st1) as [[r st2] t2]. reflexivity.
Qed.

(** A turn that raises is the last one. *)
Lemma process_tasks_poll_raises (w : world) (rest : list action) (st : state) (e : exn) :
  result_of (process_tasks_iteration w st) = Raises e ->
  process_tasks (Poll w :: rest) st =
  (Stopped e, state_of (process_tasks_iteration w st),
   trace_of (process_tasks_iteration w st)).
Proof.
  cbn [process_tasks]. unfold result_of, state_of, trace_of.
  destruct (process_tasks_iteration w st) as [[[[]|e'] st1] t1]; cbn [fst snd];
    [discriminate|].
  intros H. injection H as ->. reflexivity.
Qed.

Lemma outcome_unit_cases (r : outcome unit) :
  r = Returns tt \/ exists e, r = Raises e.
Proof.
  destruct r as [[]|e]; [left; reflexivity|right; exists e; reflexivity].
Qed.

(** A schedule after which the loop is still polling can be continued. *)
Lemma process_tasks_app (s1 s2 : list action) (st : state) :
  result_of (process_tasks s1 st) = Polling ->
  process_tasks (s1 ++ s2) st =
  (result_of (process_tasks s2 (state_of (process_tasks s1 st))),
   state_of (process_tasks s2 (state_of (process_tasks s1 st))),
   trace_of (process_tasks s1 st)
     ++ trace_of (process_tasks s2 (state_of (process_tasks s1 st)))).
Proof.
  revert st.
  induction s1 as [|a s1 IH]; intros st H.
  - cbn [app process_tasks]. unfold result_of, state_of, trace_of. cbn [fst snd app].
    destruct (process_tasks s2 st) as [[r st2] t2]. reflexivity.
  - rewrite <- app_comm_cons.
    destruct a as [channel|w|].
    + rewrite (process_tasks_press channel (s1 ++ s2)).
      rewrite (process_tasks_press channel s1) in H |- *.
      cbn [result_of state_of trace_of fst snd] in H.
      rewrite (IH _ H). cbn [result_of state_of trace_of fst snd].
      rewrite app_assoc. reflexivity.
    + destruct (outcome_unit_cases (result_of (process_tasks_iteration w st)))
        as [Hr|[e Hr]].
      * rewrite (process_tasks_poll w (s1 ++ s2) st Hr).
        rewrite (process_tasks_poll w s1 st Hr) in H |- *.
        cbn [result_of state_of trace_of fst snd] in H.
        rewrite (IH _ H). cbn [result_of state_of trace_of fst snd].
        rewrite app_assoc. reflexivity.
      * rewrite (process_tasks_poll_raises _ _ _ _ Hr) in H. discriminate H.
    + discriminate H.
Qed.

(** Over any schedule, what was taken from the queue followed by what is
    still queued is what was queued at the start followed by what was
    put: every task is taken at most once, none is lost, and tasks leave
    in the order in which they came. *)
Lemma process_tasks_fifo (sched : list action) (st : state) :
  queue_gets (trace_of (process_tasks sched st))
    ++ task_queue (state_of (process_tasks sched st))
  = task_queue st ++ queue_puts (trace_of (process_tasks sched st)).
Proof.
  revert st.
  induction sched as [|a sched IH]; intros st.
  - symmetry. apply app_nil_r.
  - destruct a as [channel|w|].
    + rewrite process_tasks_press.
      cbn [result_of state_of trace_of fst snd].
      rewrite queue_gets_app, queue_puts_app, <- app_assoc, IH.
      cbn. rewrite <- app_assoc. reflexivity.
    + destruct (iteration_queue w st) as (Hq & Hp & Hg & _).
      destruct (outcome_unit_cases (result_of (process_tasks_iteration w st)))
        as [Hr|[e Hr]].
      * rewrite (process_tasks_poll _ _ _ Hr).
        cbn [result_of state_of trace_of fst snd].
        rewrite queue_gets_app, queue_puts_app, <- app_assoc, IH, Hp, Hg, Hq.
        cbn [app]. rewrite app_assoc, firstn_skipn. reflexivity.
      * rewrite (process_tasks_poll_raises _ _ _ _ Hr).
        cbn [result_of state_of trace_of fst snd].
        rewrite Hp, Hg, Hq, firstn_skipn, app_nil_r. reflexivity.
    + symmetry. apply app_nil_r.
Qed.

(** ** Errors of the services *)

(** [analyze_image] leaves the state as it is, and its result and trace do
    not depend on the state.  When every failure of the outside world is
    an [Exception], so is what [analyze_image] raises. *)
Lemma analyze_image_frame (w : world) :
  exists r pre,
    (forall s, analyze_image w s = (r, s, pre))
    /\ (errors_only w = true ->
        match r with
        | Raises e => is_Exception e = true
        | Returns _ => True
        end).
Proof.
  unfold errors_only.
  destruct (fswebcam w) as [code|e] eqn:Hcam.
  - destruct (Z.eqb_spec code 0) as [->|Hcode].
    + destruct (image_file w) as [bytes|e] eqn:Hfile.
      * destruct (responses_create w) as [resp|e] eqn:Hresp.
        -- destruct (extract_text_total resp) as [d Hd].
           exists (Returns d). eexists. split; [|trivial].
           intros s. apply (analyze_image_returns w s bytes resp d); assumption.
        -- exists (Raises e). eexists. split.
           ++ intros s. apply (analyze_image_create_raises w s bytes e); assumption.
           ++ destruct (is_Exception e); [reflexivity|discriminate].
      * exists (Raises e). eexists. split.
        -- intros s. apply (analyze_image_read_raises w s e); assumption.
        -- destruct (is_Exception e); [reflexivity|discriminate].
    + exists (Raises (CalledProcessError code)). eexists. split; [|reflexivity].
      intros s. apply analyze_image_capture_raises.
      left. exists code. auto.
  - exists (Raises e). eexists. split.
    + intros s.
      unfold analyze_image, capture_image, subprocess_run_check, bind.
      rewrite Hcam. reflexivity.
    + destruct (is_Exception e); [reflexivity|discriminate].
Qed.

(** A turn that processes a ["capture"] task while every failure of the
    outside world is an [Exception]: it returns, with the motor pin low,
    and its last event is the poll sleep. *)
Lemma capture_turn (w : world) (st : state) (q : list pyval) :
  task_queue st = VStr "capture" :: q ->
  errors_only w = true ->
  result_of (process_tasks_iteration w st) = Returns tt
  /\ pin_level (state_of (process_tasks_iteration w st)) VibPin = LOW
  /\ exists tr, trace_of (process_tasks_iteration w st) = tr ++ [Sleep 0.1].
Proof.
  intros Hq Herr.
  destruct (analyze_image_frame w) as (r & pre & Han & He).
  specialize (He Herr).
  destruct r as [d|e].
  - destruct (spoken_cycle w st q pre Hq d Han)
      as (r & st' & tail & Hrun & (_ & Hpin & _) & Htail).
    rewrite Hrun. cbn [result_of state_of trace_of fst snd].
    assert (Hpopen : r = Returns tt /\ exists tr, tail = tr ++ [Sleep 0.1]).
    { unfold errors_only in Herr.
      apply andb_prop in Herr. destruct Herr as [_ Herr].
      destruct (popen w) as [[]|e].
      - destruct Htail as [-> ->]. split; [reflexivity|].
        eexists [_]. reflexivity.
      - rewrite Herr in Htail. destruct Htail as [-> ->]. split; [reflexivity|].
        eexists [_]. reflexivity. }
    destruct Hpopen as [-> [tr ->]].
    repeat split; [exact Hpin|].
    exists (QueueGet (VStr "capture")
              :: pre ++ pulse 0.5
              ++ PrintCall [PStr " Description:"; PStr d]
              :: Popen (espeak_command (safe_text_of d)) :: tr).
    cbn [app pulse]. rewrite <- app_assoc. reflexivity.
  - destruct (failed_cycle w st q pre Hq e Han He) as (st' & Hrun & _ & Hpin & _).
    rewrite Hrun. cbn [result_of state_of trace_of fst snd].
    repeat split; [exact Hpin|].
    exists (QueueGet (VStr "capture")
              :: pre ++ PrintCall [PStr " Error:"; PExn e] :: pulse 1.0).
    cbn [app pulse]. rewrite <- app_assoc. reflexivity.
Qed.

(** C8.  Whatever [Exception] the capture, the analysis or the speech
    call raises while a task is processed, the turn of the loop returns,
    the motor pin is low when it does, the turn ends with the poll sleep,
    and the loop goes on with the rest of the schedule. *)
Theorem service_errors_keep_loop_running
  (w : world) (st : state) (q : list pyval) :
  task_queue st = VStr "capture" :: q ->
  errors_only w = true ->
  result_of (process_tasks_iteration w st) = Returns tt
  /\ pin_level (state_of (process_tasks_iteration w st)) VibPin = LOW
  /\ (exists tr, trace_of (process_tasks_iteration w st) = tr ++ [Sleep 0.1])
  /\ (forall rest,
        process_tasks (Poll w :: rest) st =
        (result_of (process_tasks rest (state_of (process_tasks_iteration w st))),
         state_of (process_tasks rest (state_of (process_tasks_iteration w st))),
         trace_of (process_tasks_iteration w st)
           ++ trace_of (process_tasks rest (state_of (process_tasks_iteration w st))))).
Proof.
  intros Hq Herr.
  destruct (capture_turn w st q Hq Herr) as (Hr & Hpin & Htr).
  repeat split; try assumption.
  intros rest. apply process_tasks_poll, Hr.
Qed.

Lemma service_errors_keep_loop_running_witness :
  result_of (process_tasks_iteration Sample.no_shell (Sample.ready [VStr "capture"]))
  = Returns tt
  /\ pin_level (state_of (process_tasks_iteration Sample.no_shell
                            (Sample.ready [VStr "capture"]))) VibPin = LOW.
Proof.
  destruct (service_errors_keep_loop_running Sample.no_shell
              (Sample.ready [VStr "capture"]) [])
    as (Hr & Hpin & _); try reflexivity.
  split; assumption.
Defined.

(** ** Every task is consumed *)

Lemma is_capture_true (task : pyval) :
  is_capture task = true -> task = VStr "capture".
Proof.
  destruct task; try discriminate. simpl.
  intros H. apply String.eqb_eq in H. subst. reflexivity.
Qed.

(** While the services fail with [Exception]s only, every turn returns. *)
Lemma turn_returns (w : world) (st : state) :
  errors_only w = true ->
  result_of (process_tasks_iteration w st) = Returns tt.
Proof.
  intros Herr.
  destruct (task_queue st) as [|task q] eqn:Hq.
  - unfold process_tasks_iteration, bind, queue_poll. rewrite Hq. reflexivity.
  - destruct (is_capture task) eqn:Htask.
    + apply is_capture_true in Htask. subst task.
      apply (capture_turn w st q Hq Herr).
    + rewrite (skipped_turn w st task q Hq Htask). reflexivity.
Qed.

(** As many turns as there are tasks, with no press in between, take every
    task, in the order of the queue, and leave the queue empty. *)
Lemma polls_drain_queue (ws : list world) (st : state) :
  forallb errors_only ws = true ->
  length ws = length (task_queue st) ->
  result_of (process_tasks (map Poll ws) st) = Polling
  /\ queue_gets (trace_of (process_tasks (map Poll ws) st)) = task_queue st
  /\ queue_puts (trace_of (process_tasks (map Poll ws) st)) = []
  /\ task_queue (state_of (process_tasks (map Poll ws) st)) = [].
Proof.
  revert st.
  induction ws as [|w ws IH]; intros st Herr Hlen.
  - destruct (task_queue st) eqn:Hq; [|discriminate Hlen].
    cbn. auto.
  - cbn [forallb] in Herr. apply andb_prop in Herr. destruct Herr as [Hw Hws].
    destruct (task_queue st) as [|task q] eqn:Hq; [discriminate Hlen|].
    destruct (iteration_queue w st) as (Hq1 & Hp1 & Hg1 & _).
    rewrite Hq in Hq1, Hg1. cbn [skipn firstn] in Hq1, Hg1.
    cbn [map]. rewrite (process_tasks_poll w _ st (turn_returns w st Hw)).
    cbn [result_of state_of trace_of fst snd].
    destruct (IH (state_of (process_tasks_iteration w st)) Hws)
      as (Hr & Hg & Hp & Hend).
    { rewrite Hq1. cbn [length] in Hlen. congruence. }
    rewrite queue_gets_app, queue_puts_app, Hg, Hp, Hg1, Hp1, Hq1.
    auto.
Qed.

(** C6.  Over any schedule of button presses, turns of the loop and
    interrupts, the tasks taken from the queue followed by the tasks still
    queued are the tasks queued at the start followed by the tasks put
    since, in that order: tasks leave the queue in the order in which they
    entered it and each at most once.  A turn of the loop takes the task at
    the head, if any, and puts nothing back, however the processing ends.
    With [a] queued before [b], the turn that takes [a] does all the
    processing of [a] before the turn that takes [b] starts.  As many
    turns as there are tasks queued take them all, in order, and leave the
    queue empty. *)
Theorem queue_fifo_consumed_once :
  (forall sched st,
      queue_gets (trace_of (process_tasks sched st))
        ++ task_queue (state_of (process_tasks sched st))
      = task_queue st ++ queue_puts (trace_of (process_tasks sched st)))
  /\ (forall w st,
        task_queue (state_of (process_tasks_iteration w st)) = skipn 1 (task_queue st)
        /\ queue_gets (trace_of (process_tasks_iteration w st)) = firstn 1 (task_queue st)
        /\ queue_puts (trace_of (process_tasks_iteration w st)) = [])
  /\ (forall wa wb st a b q,
        task_queue st = a :: b :: q ->
        result_of (process_tasks_iteration wa st) = Returns tt ->
        exists sa sb tail,
          task_queue sa = b :: q
          /\ task_queue sb = q
          /\ trace_of (process_tasks [Poll wa; Poll wb] st) =
             QueueGet a :: trace_of (process_task wa a sa)
               ++ Sleep 0.1
               :: QueueGet b :: trace_of (process_task wb b sb) ++ tail
          /\ queue_gets (trace_of (process_task wa a sa)) = []
          /\ queue_gets (trace_of (process_task wb b sb)) = []
          /\ queue_gets tail = []
          /\ task_queue (state_of (process_tasks [Poll wa; Poll wb] st)) = q)
  /\ (forall ws st,
        forallb errors_only ws = true ->
        length ws = length (task_queue st) ->
        result_of (process_tasks (map Poll ws) st) = Polling
        /\ queue_gets (trace_of (process_tasks (map Poll ws) st)) = task_queue st
        /\ queue_puts (trace_of (process_tasks (map Poll ws) st)) = []
        /\ task_queue (state_of (process_tasks (map Poll ws) st)) = []).
Proof.
  split; [exact process_tasks_fifo|].
  split; [|split; [|exact polls_drain_queue]].
  { intros w st. destruct (iteration_queue w st) as (Hq & Hp & Hg & _). auto. }
  intros wa wb st a b q Hq Ha.
  destruct (iteration_queue wa st) as (Hqa & _ & _ & sa & Hsa & Hra & Hta).
  rewrite Hq in Hqa, Hsa, Hra, Hta. simpl in Hqa, Hsa.
  rewrite Ha in Hra. rewrite <- Hra in Hta.
  destruct (iteration_queue wb (state_of (process_tasks_iteration wa st)))
    as (Hqb & _ & _ & sb & Hsb & Hrb & Htb).
  rewrite Hqa in Hqb, Hsb, Hrb, Htb. simpl in Hqb, Hsb.
  exists sa, sb.
  exists (match result_of (process_task wb b sb) with
          | Returns _ => [Sleep 0.1]
          | Raises _ => []
          end).
  assert (Hrun : process_tasks [Poll wb] (state_of (process_tasks_iteration wa st)) =
                 (match result_of (process_tasks_iteration wb
                                     (state_of (process_tasks_iteration wa st))) with
                  | Returns _ => Polling
                  | Raises e => Stopped e
                  end,
                  state_of (process_tasks_iteration wb
                              (state_of (process_tasks_iteration wa st))),
                  trace_of (process_tasks_iteration wb
                              (state_of (process_tasks_iteration wa st))))).
  { cbn [process_tasks]. unfold result_of, state_of, trace_of.
    destruct (process_tasks_iteration wb _) as [[[[]|e] s] t]; cbn [fst snd];
      [rewrite app_nil_r|]; reflexivity. }
  rewrite (process_tasks_poll wa [Poll wb] _ Ha), Hrun.
  cbn [result_of state_of trace_of fst snd].
  rewrite Hta, Htb.
  repeat split; auto.
  - cbn [app]. rewrite <- app_assoc. reflexivity.
  - apply (quiet_process_task wa a sa).
  - apply (quiet_process_task wb b sb).
  - destruct (result_of (process_task wb b sb)); reflexivity.
Qed.

Lemma queue_fifo_consumed_once_witness :
  task_queue (state_of (process_tasks [Poll Sample.camera_down; Poll Sample.network_down]
                          (Sample.ready [VStr "capture"; VStr "capture"; VNone])))
  = [VNone]
  /\ queue_gets (trace_of (process_tasks
                             (map Poll [Sample.camera_down; Sample.network_down;
                                        Sample.no_shell])
                             (Sample.ready [VStr "capture"; VNone; VStr "capture"])))
     = [VStr "capture"; VNone; VStr "capture"].
Proof.
  split.
  - destruct (proj1 (proj2 (proj2 queue_fifo_consumed_once))
                Sample.camera_down Sample.network_down
                (Sample.ready [VStr "capture"; VStr "capture"; VNone])
                (VStr "capture") (VStr "capture") [VNone])
      as (sa & sb & tail & _ & _ & _ & _ & _ & _ & H).
    + reflexivity.
    + reflexivity.
    + exact H.
  - apply (proj2 (proj2 (proj2 queue_fifo_consumed_once))
             [Sample.camera_down; Sample.network_down; Sample.no_shell]
             (Sample.ready [VStr "capture"; VNone; VStr "capture"])).
    + reflexivity.
    + reflexivity.
Defined.

(** ** Shutdown *)

(** C9.  When the interrupt signal arrives while the loop is polling an
    empty queue, the process exits without a traceback: after the events
    so far it drives the motor pin low, releases the GPIO channels and
    prints; the motor pin is low, no channel is set up and no edge
    detection is left. *)
Theorem interrupt_while_idle_exits_cleanly (sched rest : list action) :
  result_of (main sched) = Running ->
  task_queue (state_of (main sched)) = [] ->
  result_of (main (sched ++ Sigint :: rest)) = ExitedCleanly
  /\ trace_of (main (sched ++ Sigint :: rest)) =
     trace_of (main sched)
       ++ [GpioOutput VibPin LOW; GpioCleanup; PrintCall [PStr " GPIO cleaned up."]]
  /\ pin_level (state_of (main (sched ++ Sigint :: rest))) VibPin = LOW
  /\ gpio_channels (state_of (main (sched ++ Sigint :: rest))) = []
  /\ gpio_event_detect (state_of (main (sched ++ Sigint :: rest))) = [].
Proof.
  unfold main.
  destruct ((setup ;; GPIO_add_event_detect BtnPin 500) boot)
    as [[[[]|e] st0] t0] eqn:Hinit; [|discriminate Hinit].
  intros Hrun _.
  assert (Hpoll : result_of (process_tasks sched st0) = Polling).
  { unfold result_of in *.
    destruct (process_tasks sched st0) as [[[|e] st1] t1]; [reflexivity|].
    destruct e; [discriminate Hrun|discriminate Hrun|].
    cbn in Hrun. discriminate Hrun. }
  rewrite (process_tasks_app sched (Sigint :: rest) st0 Hpoll).
  cbn [process_tasks result_of state_of trace_of fst snd].
  unfold result_of, state_of, trace_of in *.
  destruct (process_tasks sched st0) as [[r st1] t1]. cbn [fst snd] in *.
  subst r. cbn. rewrite app_nil_r.
  repeat split. apply app_assoc.
Qed.

Lemma interrupt_while_idle_exits_cleanly_witness :
  result_of (main [Press BtnPin; Poll (Sample.answers Sample.chair);
                   Poll Sample.camera_down; Sigint]) = ExitedCleanly
  /\ pin_level (state_of (main [Press BtnPin; Poll (Sample.answers Sample.chair);
                                Poll Sample.camera_down; Sigint])) VibPin = LOW.
Proof.
  destruct (interrupt_while_idle_exits_cleanly
              [Press BtnPin; Poll (Sample.answers Sample.chair); Poll Sample.camera_down]
              [])
    as (Hr & _ & Hpin & _); try reflexivity.
  split; assumption.
Defined.

(** * Further properties *)

(** ** Every way a turn of the loop can go *)

Lemma analyze_image_shape (w : world) :
  exists r pre,
    (forall s, analyze_image w s = (r, s, pre)) /\ analysis_shape w r pre.
Proof.
  unfold analysis_shape.
  destruct (fswebcam w) as [code|e] eqn:Hcam.
  - destruct (Z.eqb_spec code 0) as [->|Hcode].
    + destruct (image_file w) as [bytes|e] eqn:Hfile.
      * destruct (responses_create w) as [resp|e] eqn:Hresp.
        -- destruct (extract_text_total resp) as [d Hd].
           exists (Returns d). eexists. split.
           ++ intros s. apply (analyze_image_returns w s bytes resp d); assumption.
           ++ do 3 right. exists d, bytes, resp. auto 10.
        -- exists (Raises e). eexists. split.
           ++ intros s. apply (analyze_image_create_raises w s bytes e); assumption.
           ++ do 2 right. left. exists e, bytes. auto 10.
      * exists (Raises e). eexists. split.
        -- intros s. apply (analyze_image_read_raises w s e); assumption.
        -- right. left. exists e. auto.
    + exists (Raises (CalledProcessError code)). eexists. split.
      * intros s. apply analyze_image_capture_raises. left. exists code. auto.
      * left. eexists. repeat split. intros H. injection H as ->. apply Hcode. reflexivity.
  - exists (Raises e). eexists. split.
    + intros s. unfold analyze_image, capture_image, subprocess_run_check, bind.
      rewrite Hcam. reflexivity.
    + left. exists e. repeat split. discriminate.
Qed.

(** [analyze_image] is left by an exception that is not an [Exception]:
    nothing catches it, the turn stops there, with no pulse and no poll
    sleep. *)
Lemma interrupted_cycle
  (w : world) (st : state) (q : list pyval) (pre : list event) (e : exn) :
  task_queue st = VStr "capture" :: q ->
  (forall s, analyze_image w s = (Raises e, s, pre)) ->
  is_Exception e = false ->
  process_tasks_iteration w st =
  (Raises e,
   {| task_queue := q;
      pin_level := pin_level st;
      gpio_channels := gpio_channels st;
      gpio_event_detect := gpio_event_detect st |},
   QueueGet (VStr "capture") :: pre).
Proof.
  intros Hq Han He.
  cbv beta iota delta [process_tasks_iteration bind queue_poll].
  rewrite Hq.
  cbv beta iota delta [process_task is_capture try_except_Exception bind].
  rewrite String.eqb_refl. cbv beta iota.
  rewrite Han. cbv beta iota. rewrite He. reflexivity.
Qed.

(** The turn that takes a ["capture"] task, for every outcome of the
    outside world. *)
Lemma capture_turn_shape (w : world) (st : state) (q : list pyval) :
  task_queue st = VStr "capture" :: q ->
  exists r pre,
    analysis_shape w r pre
    /\ task_queue (state_of (process_tasks_iteration w st)) = q
    /\ match r with
       | Raises e =>
           if is_Exception e
           then process_tasks_iteration w st =
                (Returns tt, state_of (process_tasks_iteration w st),
                 QueueGet (VStr "capture")
                   :: pre ++ PrintCall [PStr " Error:"; PExn e]
                   :: pulse 1.0 ++ [Sleep 0.1])
           else process_tasks_iteration w st =
                (Raises e, state_of (process_tasks_iteration w st),
                 QueueGet (VStr "capture") :: pre)
       | Returns d =>
           exists r' tail,
             process_tasks_iteration w st =
             (r', state_of (process_tasks_iteration w st),
              QueueGet (VStr "capture")
                :: pre ++ pulse 0.5
                ++ PrintCall [PStr " Description:"; PStr d]
                :: Popen (espeak_command (safe_text_of d)) :: tail)
             /\ match popen w with
                | Returns _ =>
                    r' = Returns tt
                    /\ tail = [PrintCall [PStr (" Speaking: " ++ safe_text_of d)%string];
                               Sleep 0.1]
                | Raises e =>
                    if is_Exception e
                    then r' = Returns tt
                         /\ tail = [PrintCall [PStr " Speech failed:"; PExn e]; Sleep 0.1]
                    else r' = Raises e /\ tail = []
                end
       end.
Proof.
  intros Hq.
  destruct (analyze_image_shape w) as (r & pre & Han & Hshape).
  exists r, pre. split; [exact Hshape|].
  destruct r as [d|e].
  - destruct (spoken_cycle w st q pre Hq d Han)
      as (r' & st' & tail & Hrun & (Hq' & _) & Htail).
    rewrite Hrun. cbn [state_of fst snd]. split; [exact Hq'|].
    exists r', tail. split; [reflexivity|exact Htail].
  - destruct (is_Exception e) eqn:He.
    + destruct (failed_cycle w st q pre Hq e Han He) as (st' & Hrun & Hq' & _).
      rewrite Hrun. cbn [state_of fst snd]. split; [exact Hq'|reflexivity].
    + rewrite (interrupted_cycle w st q pre e Hq Han He).
      cbn [state_of fst snd]. split; reflexivity.
Qed.

(** A turn finds the queue empty, or takes a task that is not
    ["capture"], or takes a ["capture"] task. *)
Lemma turn_cases (w : world) (st : state) :
  (task_queue st = [] /\ process_tasks_iteration w st = (Returns tt, st, [Sleep 0.1]))
  \/ (exists task q,
        task_queue st = task :: q /\ is_capture task = false
        /\ trace_of (process_tasks_iteration w st) = [QueueGet task; Sleep 0.1]
        /\ result_of (process_tasks_iteration w st) = Returns tt)
  \/ (exists q, task_queue st = VStr "capture" :: q).
Proof.
  destruct (task_queue st) as [|task q] eqn:Hq.
  - left. split; [reflexivity|].
    unfold process_tasks_iteration, bind, queue_poll. rewrite Hq. reflexivity.
  - right. destruct (is_capture task) eqn:Htask.
    + right. apply is_capture_true in Htask. subst task. exists q. reflexivity.
    + left. exists task, q. rewrite (skipped_turn w st task q Hq Htask). auto.
Qed.

(** Splits a goal about the turn that takes a ["capture"] task into the
    nine ways the turn can go, each with its trace written out. *)
Ltac capture_shapes w st q Hq :=
  let r := fresh "r" in
  let pre := fresh "pre" in
  let Hshape := fresh "Hshape" in
  let Hq' := fresh "Hq'" in
  let Hrun := fresh "Hrun" in
  let e := fresh "e" in
  let e' := fresh "e'" in
  let d := fresh "d" in
  let bytes := fresh "bytes" in
  let resp := fresh "resp" in
  let r' := fresh "r'" in
  let tail := fresh "tail" in
  let Hcam := fresh "Hcam" in
  let Hfile := fresh "Hfile" in
  let Hresp := fresh "Hresp" in
  let Hd := fresh "Hd" in
  let He := fresh "He" in
  let He' := fresh "He'" in
  let Htail := fresh "Htail" in
  let Hpopen := fresh "Hpopen" in
  destruct (capture_turn_shape w st q Hq) as (r & pre & Hshape & Hq' & Hrun);
  destruct Hshape
    as [(e & -> & -> & Hcam)
       |[(e & -> & -> & Hcam & Hfile)
        |[(e & bytes & -> & -> & Hcam & Hfile & Hresp)
         |(d & bytes & resp & -> & -> & Hcam & Hfile & Hresp & Hd)]]];
  [ destruct (is_Exception e) eqn:He
  | destruct (is_Exception e) eqn:He
  | destruct (is_Exception e) eqn:He
  | destruct Hrun as (r' & tail & Hrun & Htail);
    destruct (popen w) as [[]|e'] eqn:Hpopen;
    [|destruct (is_Exception e') eqn:He'];
    destruct Htail as [-> ->] ];
  rewrite Hrun; cbn [result_of state_of trace_of fst snd].

(** X1.  A turn that finds the queue empty does nothing but the poll
    sleep: no service is called, no pin is driven, the state is
    unchanged. *)
Theorem idle_turn_only_sleeps (w : world) (st : state) :
  task_queue st = [] ->
  process_tasks_iteration w st = (Returns tt, st, [Sleep 0.1]).
Proof.
  intros Hq.
  unfold process_tasks_iteration, bind, queue_poll. rewrite Hq. reflexivity.
Qed.

Lemma idle_turn_only_sleeps_witness :
  trace_of (process_tasks_iteration Sample.camera_down (Sample.ready [])) = [Sleep 0.1].
Proof.
  rewrite (idle_turn_only_sleeps Sample.camera_down (Sample.ready [])); reflexivity.
Defined.

(** X2.  Within one turn each of the capture process, the analysis
    service and the shell is called at most once, and the motor pulses at
    most once, for 0.5 s or for 1.0 s.  The long pulse and a speech call
    never occur in the same turn, and the short pulse is always followed by
    a speech call. *)
Theorem turn_calls_at_most_once (w : world) (st : state) :
  (length (capture_calls (trace_of (process_tasks_iteration w st))) <= 1)%nat
  /\ (length (analysis_calls (trace_of (process_tasks_iteration w st))) <= 1)%nat
  /\ (length (speech_calls (trace_of (process_tasks_iteration w st))) <= 1)%nat
  /\ (pulses (trace_of (process_tasks_iteration w st)) = []
      \/ pulses (trace_of (process_tasks_iteration w st)) = [0.5%Q]
         /\ length (speech_calls (trace_of (process_tasks_iteration w st))) = 1%nat
      \/ pulses (trace_of (process_tasks_iteration w st)) = [1.0%Q]
         /\ speech_calls (trace_of (process_tasks_iteration w st)) = []).
Proof.
  destruct (turn_cases w st) as [[_ Hrun]|[(task & q & _ & _ & Htr & _)|[q Hq]]].
  - rewrite Hrun. cbn. auto.
  - rewrite Htr. cbn. auto.
  - capture_shapes w st q Hq; cbn; auto 10.
Qed.

(** X3.  The analysis service is called only after [fswebcam] has exited
    with status 0 and the image file has been read, and the request then
    carries the base64 data URL of exactly the bytes read.  The shell is
    called only after the analysis service has returned a response, and
    the command then holds the extracted text without its quotes. *)
Theorem calls_follow_the_pipeline (w : world) (st : state) :
  (analysis_calls (trace_of (process_tasks_iteration w st)) <> [] ->
   fswebcam w = Exited 0
   /\ length (capture_calls (trace_of (process_tasks_iteration w st))) = 1%nat
   /\ exists bytes,
        image_file w = Returns bytes
        /\ analysis_calls (trace_of (process_tasks_iteration w st)) =
           [ResponsesCreate MODEL "low" 256 prompt
              ("data:image/jpeg;base64," ++ Base64.b64encode bytes)])
  /\ (speech_calls (trace_of (process_tasks_iteration w st)) <> [] ->
      length (analysis_calls (trace_of (process_tasks_iteration w st))) = 1%nat
      /\ exists resp d,
           responses_create w = Returns resp
           /\ extract_text resp = Returns d
           /\ speech_calls (trace_of (process_tasks_iteration w st)) =
              [espeak_command (safe_text_of d)]).
Proof.
  destruct (turn_cases w st) as [[_ Hrun]|[(task & q & _ & _ & Htr & _)|[q Hq]]].
  - rewrite Hrun. cbn. split; intros H; exfalso; apply H; reflexivity.
  - rewrite Htr. cbn. split; intros H; exfalso; apply H; reflexivity.
  - capture_shapes w st q Hq; cbn;
      (split; intros H;
       [ first [ exfalso; apply H; reflexivity
               | split; [assumption|]; split; [reflexivity|];
                 exists bytes; split; [assumption|reflexivity] ]
       | first [ exfalso; apply H; reflexivity
               | split; [reflexivity|]; exists resp, d; auto ] ]).
Qed.

Lemma calls_follow_the_pipeline_witness :
  fswebcam Sample.no_shell = Exited 0
  /\ exists resp d,
       responses_create Sample.no_shell = Returns resp
       /\ extract_text resp = Returns d
       /\ speech_calls (trace_of (process_tasks_iteration Sample.no_shell
                                    (Sample.ready [VStr "capture"])))
          = [espeak_command (safe_text_of d)].
Proof.
  destruct (calls_follow_the_pipeline Sample.no_shell (Sample.ready [VStr "capture"]))
    as [Hanalysis Hspeech].
  split.
  - apply Hanalysis. discriminate.
  - apply Hspeech. discriminate.
Defined.

(** X4.  When the capture succeeds and the image file cannot be read
    back, the turn ends in Failed before any request is made: the long
    pulse fires, and neither the analysis service nor the shell is
    called. *)
Theorem image_read_failure_long_pulse
  (w : world) (st : state) (q : list pyval) (e : exn) :
  task_queue st = VStr "capture" :: q ->
  fswebcam w = Exited 0 ->
  image_file w = Raises e ->
  is_Exception e = true ->
  result_of (process_tasks_iteration w st) = Returns tt
  /\ trace_of (process_tasks_iteration w st) =
     QueueGet (VStr "capture")
       :: read_events
       ++ PrintCall [PStr " Error:"; PExn e] :: pulse 1.0 ++ [Sleep 0.1]
  /\ pulses (trace_of (process_tasks_iteration w st)) = [1.0%Q]
  /\ analysis_calls (trace_of (process_tasks_iteration w st)) = []
  /\ speech_calls (trace_of (process_tasks_iteration w st)) = []
  /\ task_queue (state_of (process_tasks_iteration w st)) = q.
Proof.
  intros Hq Hcam Hfile He.
  destruct (failed_cycle w st q _ Hq e
              (fun s => analyze_image_read_raises w s e Hcam Hfile) He)
    as (st' & Hrun & Hq' & _).
  rewrite Hrun. repeat split. exact Hq'.
Qed.

Lemma image_read_failure_long_pulse_witness :
  pulses (trace_of (process_tasks_iteration Fault.unreadable
                      (Sample.ready [VStr "capture"]))) = [1.0%Q]
  /\ analysis_calls (trace_of (process_tasks_iteration Fault.unreadable
                                 (Sample.ready [VStr "capture"]))) = [].
Proof.
  destruct (image_read_failure_long_pulse Fault.unreadable
              (Sample.ready [VStr "capture"]) []
              (Exception "FileNotFoundError" "captured_image.jpg"))
    as (_ & _ & Hpulse & Hcalls & _); try reflexivity.
  split; assumption.
Defined.

(** X5.  A failure to start the speech command is logged and nothing
    more: after a successful analysis the turn still returns, the short
    pulse has fired, the long pulse does not, and the failure is printed
    before the poll sleep. *)
Theorem speech_failure_is_only_logged
  (w : world) (st : state) (q : list pyval) (bytes : list Byte.byte)
  (resp : pyobj) (e : exn) :
  task_queue st = VStr "capture" :: q ->
  fswebcam w = Exited 0 ->
  image_file w = Returns bytes ->
  responses_create w = Returns resp ->
  popen w = Raises e ->
  is_Exception e = true ->
  result_of (process_tasks_iteration w st) = Returns tt
  /\ pulses (trace_of (process_tasks_iteration w st)) = [0.5%Q]
  /\ length (speech_calls (trace_of (process_tasks_iteration w st))) = 1%nat
  /\ (exists tr,
        trace_of (process_tasks_iteration w st) =
        tr ++ [PrintCall [PStr " Speech failed:"; PExn e]; Sleep 0.1])
  /\ pin_level (state_of (process_tasks_iteration w st)) VibPin = LOW.
Proof.
  intros Hq Hcam Hfile Hresp Hpopen He.
  destruct (extract_text_total resp) as [d Hd].
  destruct (spoken_cycle w st q _ Hq d
              (fun s => analyze_image_returns w s bytes resp d Hcam Hfile Hresp Hd))
    as (r & st' & tail & Hrun & (_ & Hpin & _) & Htail).
  rewrite Hpopen, He in Htail. destruct Htail as [-> ->].
  rewrite Hrun. cbn [result_of state_of trace_of fst snd].
  repeat split; try assumption.
  exists (QueueGet (VStr "capture")
            :: (request_events bytes ++ [PrintCall [PStr " AI says:"; PStr d]])
            ++ pulse 0.5
            ++ [PrintCall [PStr " Description:"; PStr d];
                Popen (espeak_command (safe_text_of d))]).
  cbn. reflexivity.
Qed.

Lemma speech_failure_is_only_logged_witness :
  result_of (process_tasks_iteration Sample.no_shell (Sample.ready [VStr "capture"]))
  = Returns tt
  /\ pulses (trace_of (process_tasks_iteration Sample.no_shell
                         (Sample.ready [VStr "capture"]))) = [0.5%Q].
Proof.
  destruct (speech_failure_is_only_logged Sample.no_shell
              (Sample.ready [VStr "capture"]) [] Sample.jpeg Sample.chair
              (Exception "OSError" "Cannot allocate memory"))
    as (Hr & Hpulse & _); try reflexivity.
  split; assumption.
Defined.

(** X6.  While the services fail with [Exception]s only, the turn that
    takes a ["capture"] task gives the short pulse when the capture, the
    reading of the image and the request all succeed, and the long pulse in
    every other case: the pulse tells exactly whether a description was
    obtained. *)
Theorem pulse_tells_the_outcome (w : world) (st : state) (q : list pyval) :
  task_queue st = VStr "capture" :: q ->
  errors_only w = true ->
  (pulses (trace_of (process_tasks_iteration w st)) = [0.5%Q]
   <-> fswebcam w = Exited 0
       /\ (exists bytes, image_file w = Returns bytes)
       /\ (exists resp, responses_create w = Returns resp))
  /\ (pulses (trace_of (process_tasks_iteration w st)) = [1.0%Q]
      <-> ~ (fswebcam w = Exited 0
             /\ (exists bytes, image_file w = Returns bytes)
             /\ (exists resp, responses_create w = Returns resp))).
Proof.
  intros Hq Herr.
  assert (Hpopen : forall e, popen w = Raises e -> is_Exception e = true).
  { intros e H. unfold errors_only in Herr. rewrite H in Herr.
    apply andb_prop in Herr. apply Herr. }
  assert (Hraise : forall e,
             fswebcam w = RunRaised e \/ image_file w = Raises e
             \/ responses_create w = Raises e ->
             is_Exception e = true).
  { intros e H. unfold errors_only in Herr.
    apply andb_prop in Herr. destruct Herr as [Herr _].
    apply andb_prop in Herr. destruct Herr as [Herr H3].
    apply andb_prop in Herr. destruct Herr as [H1 H2].
    destruct H as [H|[H|H]]; rewrite H in *; assumption. }
  capture_shapes w st q Hq; cbn.
  - split; split; try discriminate; auto.
    + intros [H _]. contradiction.
    + intros _ [H _]. contradiction.
  - exfalso.
    destruct (fswebcam w) as [code|e'] eqn:Hf.
    + destruct (analyze_image_shape w) as (r & pre & Han & _).
      destruct (Z.eqb_spec code 0) as [->|Hcode]; [contradiction|].
      clear - Hrun Hq Hf Hcode He.
      unfold process_tasks_iteration, bind, queue_poll in Hrun. rewrite Hq in Hrun.
      unfold process_task, is_capture in Hrun. rewrite String.eqb_refl in Hrun.
      unfold try_except_Exception, bind, analyze_image, capture_image,
        subprocess_run_check, bind in Hrun.
      rewrite Hf in Hrun. cbn in Hrun.
      apply Z.eqb_neq in Hcode. rewrite Hcode in Hrun. cbn in Hrun.
      discriminate Hrun.
    + clear - Hrun Hq Hf He Hraise.
      unfold process_tasks_iteration, bind, queue_poll in Hrun. rewrite Hq in Hrun.
      unfold process_task, is_capture in Hrun. rewrite String.eqb_refl in Hrun.
      unfold try_except_Exception, bind, analyze_image, capture_image,
        subprocess_run_check, bind in Hrun.
      rewrite Hf in Hrun. cbn in Hrun.
      rewrite (Hraise e' (or_introl eq_refl)) in Hrun. cbn in Hrun.
      discriminate Hrun.
  - split; split; try discriminate; auto.
    + intros (_ & [bytes H] & _). rewrite Hfile in H. discriminate H.
    + intros _ (_ & [bytes H] & _). rewrite Hfile in H. discriminate H.
  - rewrite (Hraise e (or_intror (or_introl Hfile))) in He. discriminate He.
  - split; split; try discriminate; auto.
    + intros (_ & _ & [resp H]). rewrite Hresp in H. discriminate H.
    + intros _ (_ & _ & [resp H]). rewrite Hresp in H. discriminate H.
  - rewrite (Hraise e (or_intror (or_intror Hresp))) in He. discriminate He.
  - split; split; try discriminate; eauto.
    intros H. exfalso. apply H. eauto.
  - split; split; try discriminate; eauto.
    intros H. exfalso. apply H. eauto.
  - rewrite (Hpopen e' eq_refl) in He'. discriminate He'.
Qed.

(** ** The loop as a whole *)

(** A turn is left only by the interrupt. *)
Lemma turn_raises_only_interrupt (w : world) (st : state) (e : exn) :
  result_of (process_tasks_iteration w st) = Raises e -> e = KeyboardInterrupt.
Proof.
  destruct (turn_cases w st) as [[_ Hrun]|[(task & q & _ & _ & _ & Hr)|[q Hq]]].
  - rewrite Hrun. discriminate.
  - rewrite Hr. discriminate.
  - capture_shapes w st q Hq; intros H; try discriminate H;
      injection H as <-;
      match goal with
      | He : is_Exception ?x = false |- _ => destruct x; try discriminate He; reflexivity
      end.
Qed.

Lemma stopped_by_interrupt (sched : list action) (st : state) (e : exn) :
  result_of (process_tasks sched st) = Stopped e -> e = KeyboardInterrupt.
Proof.
  revert st.
  induction sched as [|a sched IH]; intros st H.
  - discriminate H.
  - destruct a as [channel|w|].
    + rewrite process_tasks_press in H. apply (IH _ H).
    + destruct (outcome_unit_cases (result_of (process_tasks_iteration w st)))
        as [Hr|[e' Hr]].
      * rewrite (process_tasks_poll w sched st Hr) in H. apply (IH _ H).
      * rewrite (process_tasks_poll_raises w sched st e' Hr) in H.
        injection H as <-. apply (turn_raises_only_interrupt w st e' Hr).
    + injection H as <-. reflexivity.
Qed.

(** X7.  No failure of the camera, of the file system, of the analysis
    service or of the shell ends the consumer loop: over any schedule, the
    only exception that leaves [process_tasks] is [KeyboardInterrupt]. *)
Theorem loop_stops_only_on_interrupt (sched : list action) (st : state) (e : exn) :
  result_of (process_tasks sched st) = Stopped e -> e = KeyboardInterrupt.
Proof.
  apply stopped_by_interrupt.
Qed.

Lemma loop_stops_only_on_interrupt_witness :
  result_of (process_tasks [Poll Sample.camera_down; Poll Fault.interrupted_speech;
                            Poll Sample.network_down]
               (Sample.ready [VStr "capture"; VStr "capture"; VStr "capture"]))
  = Stopped KeyboardInterrupt.
Proof.
  destruct (result_of (process_tasks [Poll Sample.camera_down;
                                      Poll Fault.interrupted_speech;
                                      Poll Sample.network_down]
                         (Sample.ready [VStr "capture"; VStr "capture"; VStr "capture"])))
    as [|e] eqn:H.
  - discriminate H.
  - rewrite (loop_stops_only_on_interrupt _ _ e H). reflexivity.
Defined.

(** ** Presses *)

Lemma queue_puts_presses (sched : list action) (st : state) :
  result_of (process_tasks sched st) = Polling ->
  queue_puts (trace_of (process_tasks sched st))
  = repeat (VStr "capture") (presses sched).
Proof.
  revert st.
  induction sched as [|a sched IH]; intros st H.
  - reflexivity.
  - destruct a as [channel|w|].
    + rewrite process_tasks_press in H |- *.
      cbn [result_of state_of trace_of fst snd] in H |- *.
      rewrite queue_puts_app, (IH _ H). reflexivity.
    + destruct (outcome_unit_cases (result_of (process_tasks_iteration w st)))
        as [Hr|[e Hr]].
      * rewrite (process_tasks_poll w sched st Hr) in H |- *.
        cbn [result_of state_of trace_of fst snd] in H |- *.
        destruct (iteration_queue w st) as (_ & Hp & _).
        rewrite queue_puts_app, Hp, (IH _ H). reflexivity.
      * rewrite (process_tasks_poll_raises w sched st e Hr) in H. discriminate H.
    + discriminate H.
Qed.

(** X9.  Every press leaves its own task: over a schedule that the loop
    survives, the tasks put on the queue are as many ["capture"] tasks as
    there were presses, and each of them has been taken by the loop or is
    still queued, so that with [n] tasks queued at the start, the tasks
    taken and the tasks left are [n] plus the number of presses. *)
Theorem each_press_queues_one_task (sched : list action) (st : state) :
  result_of (process_tasks sched st) = Polling ->
  queue_puts (trace_of (process_tasks sched st))
  = repeat (VStr "capture") (presses sched)
  /\ (length (queue_gets (trace_of (process_tasks sched st)))
      + length (task_queue (state_of (process_tasks sched st)))
      = length (task_queue st) + presses sched)%nat.
Proof.
  intros H.
  pose proof (queue_puts_presses sched st H) as Hputs.
  split; [exact Hputs|].
  pose proof (process_tasks_fifo sched st) as Hfifo.
  apply (f_equal (@length pyval)) in Hfifo.
  rewrite !length_app, Hputs, repeat_length in Hfifo. exact Hfifo.
Qed.

Lemma each_press_queues_one_task_witness :
  task_queue (state_of (process_tasks [Press BtnPin; Press BtnPin;
                                       Poll Sample.camera_down; Press BtnPin]
                          (Sample.ready [])))
  = [VStr "capture"; VStr "capture"]
  /\ queue_puts (trace_of (process_tasks [Press BtnPin; Press BtnPin;
                                          Poll Sample.camera_down; Press BtnPin]
                             (Sample.ready [])))
     = [VStr "capture"; VStr "capture"; VStr "capture"].
Proof.
  split; [reflexivity|].
  apply (each_press_queues_one_task
           [Press BtnPin; Press BtnPin; Poll Sample.camera_down; Press BtnPin]
           (Sample.ready [])).
  reflexivity.
Defined.

(** ** The pins *)

Section Safe.

Context {A B : Type}.

Lemma safe_ret (a : A) : motor_safe (ret a).
Proof. intros s. repeat split; auto. Qed.

Lemma safe_raise (e : exn) : motor_safe (@raise A e).
Proof. intros s. repeat split; auto. Qed.

Lemma safe_lift (o : outcome A) : motor_safe (lift o).
Proof. intros s. repeat split; auto. Qed.

Lemma safe_bind (m : M A) (f : A -> M B) :
  motor_safe m -> (forall a, motor_safe (f a)) -> motor_safe (bind m f).
Proof.
  intros Hm Hf s. specialize (Hm s). unfold bind.
  destruct (m s) as [[[a|e] s1] t1]; unfold state_of in *; cbn [fst snd] in *.
  - specialize (Hf a s1). unfold state_of in Hf.
    destruct (f a s1) as [[r s2] t2]; cbn [fst snd] in *.
    destruct Hm as (Hc & Hd & Hp), Hf as (Hc' & Hd' & Hp').
    repeat split; try congruence.
    intros p Hne. rewrite (Hp' p Hne). apply (Hp p Hne).
  - exact Hm.
Qed.

Lemma safe_try (m : M A) (h : exn -> M A) :
  motor_safe m -> (forall e, motor_safe (h e)) ->
  motor_safe (try_except_Exception m h).
Proof.
  intros Hm Hh s. specialize (Hm s). unfold try_except_Exception.
  destruct (m s) as [[[a|e] s1] t1]; unfold state_of in *; cbn [fst snd] in *.
  - exact Hm.
  - destruct (is_Exception e); [|exact Hm].
    specialize (Hh e s1). unfold state_of in Hh.
    destruct (h e s1) as [[r s2] t2]; cbn [fst snd] in *.
    destruct Hm as (Hc & Hd & Hp), Hh as (Hc' & Hd' & Hp').
    repeat split; try congruence.
    intros p Hne. rewrite (Hp' p Hne). apply (Hp p Hne).
Qed.

End Safe.

Lemma safe_emit (e : event) : motor_safe (emit e).
Proof. intros s. repeat split; auto. Qed.

(** [vibrate] writes to the motor pin only. *)
Lemma safe_vibrate (d : Q) : motor_safe (vibrate d).
Proof.
  intros s. cbn. repeat split.
  intros p Hne. apply Z.eqb_neq in Hne. rewrite Hne. reflexivity.
Qed.

Lemma safe_queue_put (task : pyval) : motor_safe (queue_put task).
Proof. intros s. repeat split; auto. Qed.

Lemma safe_queue_poll : motor_safe queue_poll.
Proof.
  intros s. unfold queue_poll.
  destruct (task_queue s); repeat split; auto.
Qed.

Create HintDb safe.
#[local] Hint Resolve safe_ret safe_raise safe_lift safe_emit safe_vibrate
  safe_queue_put safe_queue_poll : safe.

Ltac safe :=
  repeat first
    [ solve [auto with safe]
    | apply safe_bind
    | apply safe_try
    | match goal with |- forall _, _ => intro end ].

Lemma safe_analyze_image (w : world) : motor_safe (analyze_image w).
Proof.
  unfold analyze_image, capture_image, subprocess_run_check, to_data_url,
    client_responses_create, print.
  safe.
  destruct (fswebcam w) as [code|e]; [destruct (Z.eqb code 0)|]; safe.
Qed.

Lemma safe_speak (w : world) (text : string) : motor_safe (speak w text).
Proof. unfold speak, subprocess_Popen, print. safe. Qed.

#[local] Hint Resolve safe_analyze_image safe_speak : safe.

Lemma safe_process_task (w : world) (task : pyval) : motor_safe (process_task w task).
Proof.
  unfold process_task, print.
  destruct (is_capture task); safe.
Qed.

Lemma safe_iteration (w : world) : motor_safe (process_tasks_iteration w).
Proof.
  unfold process_tasks_iteration, sleep.
  apply safe_bind; [apply safe_queue_poll|].
  intros [task|]; apply safe_bind; safe; apply safe_process_task.
Qed.

Lemma safe_button_pressed (channel : Z) : motor_safe (button_pressed channel).
Proof. unfold button_pressed, print. safe. Qed.

Lemma pins_kept (sched : list action) (st : state) :
  gpio_channels (state_of (process_tasks sched st)) = gpio_channels st
  /\ gpio_event_detect (state_of (process_tasks sched st)) = gpio_event_detect st
  /\ (forall p, p <> VibPin ->
      pin_level (state_of (process_tasks sched st)) p = pin_level st p).
Proof.
  revert st.
  induction sched as [|a sched IH]; intros st.
  - repeat split; auto.
  - destruct a as [channel|w|].
    + rewrite process_tasks_press. cbn [state_of fst snd].
      destruct (safe_button_pressed channel st) as (Hc & Hd & Hp).
      destruct (IH (state_of (button_pressed channel st))) as (Hc' & Hd' & Hp').
      fold (state_of (process_tasks sched (state_of (button_pressed channel st)))).
      repeat split; try congruence.
      intros p Hne. rewrite (Hp' p Hne). apply (Hp p Hne).
    + destruct (safe_iteration w st) as (Hc & Hd & Hp).
      destruct (outcome_unit_cases (result_of (process_tasks_iteration w st)))
        as [Hr|[e Hr]].
      * rewrite (process_tasks_poll w sched st Hr). cbn [state_of fst snd].
        destruct (IH (state_of (process_tasks_iteration w st)))
          as (Hc' & Hd' & Hp').
        fold (state_of (process_tasks sched (state_of (process_tasks_iteration w st)))).
        repeat split; try congruence.
        intros p Hne. rewrite (Hp' p Hne). apply (Hp p Hne).
      * rewrite (process_tasks_poll_raises w sched st e Hr). cbn [state_of fst snd].
        fold (state_of (process_tasks_iteration w st)).
        repeat split; auto.
    + repeat split; auto.
Qed.

(** X10.  The callback and the consumer loop write to no pin but the
    motor's and never reconfigure the GPIO: over any schedule of presses,
    turns and interrupts, however the turns end, every other pin keeps its
    level, and the channels and the edge detection stay as [setup] and the
    registration of the callback made them. *)
Theorem loop_keeps_pins (sched : list action) (st : state) :
  gpio_channels (state_of (process_tasks sched st)) = gpio_channels st
  /\ gpio_event_detect (state_of (process_tasks sched st)) = gpio_event_detect st
  /\ (forall p, p <> VibPin ->
      pin_level (state_of (process_tasks sched st)) p = pin_level st p).
Proof.
  apply pins_kept.
Qed.

Lemma loop_keeps_pins_witness :
  pin_level (state_of (process_tasks [Press BtnPin; Poll Fault.interrupted_speech;
                                      Press BtnPin]
                         (Sample.ready []))) BtnPin = LOW
  /\ gpio_channels (state_of (process_tasks [Press BtnPin; Poll Fault.interrupted_speech;
                                             Press BtnPin]
                                (Sample.ready [])))
     = [(VibPin, OUT); (BtnPin, IN_PUD_UP)].
Proof.
  destruct (loop_keeps_pins [Press BtnPin; Poll Fault.interrupted_speech; Press BtnPin]
              (Sample.ready []))
    as (Hc & _ & Hp).
  split.
  - rewrite (Hp BtnPin); [reflexivity|discriminate].
  - rewrite Hc. reflexivity.
Defined.

(** ** A press followed by a turn *)

(** X11.  A press on an idle device, followed by a turn of the loop in
    which the camera, the file, the analysis service and the shell all
    answer: the acknowledgment pulse (0.2 s) and the put come first, then
    the capture and the request, then the success pulse (0.5 s), then the
    speech command with the extracted text without its quotes; the queue
    is empty again and the loop goes on polling. *)
Theorem press_then_turn
  (channel : Z) (w : world) (st : state) (bytes : list Byte.byte) (resp : pyobj) :
  task_queue st = [] ->
  fswebcam w = Exited 0 ->
  image_file w = Returns bytes ->
  responses_create w = Returns resp ->
  popen w = Returns tt ->
  exists d,
    extract_text resp = Returns d
    /\ result_of (process_tasks [Press channel; Poll w] st) = Polling
    /\ trace_of (process_tasks [Press channel; Poll w] st) =
       PrintCall [PStr " Button pressed! Queuing capture task..."]
         :: pulse 0.2
         ++ QueuePut (VStr "capture") :: QueueGet (VStr "capture")
         :: request_events bytes
         ++ PrintCall [PStr " AI says:"; PStr d]
         :: pulse 0.5
         ++ [PrintCall [PStr " Description:"; PStr d];
             Popen (espeak_command (safe_text_of d));
             PrintCall [PStr (" Speaking: " ++ safe_text_of d)%string];
             Sleep 0.1]
    /\ pulses (trace_of (process_tasks [Press channel; Poll w] st)) = [0.2%Q; 0.5%Q]
    /\ task_queue (state_of (process_tasks [Press channel; Poll w] st)) = [].
Proof.
  intros Hq Hcam Hfile Hresp Hpopen.
  destruct (extract_text_total resp) as [d Hd].
  exists d. split; [exact Hd|].
  set (st1 := state_of (button_pressed channel st)).
  assert (Hq1 : task_queue st1 = [VStr "capture"]).
  { cbn. rewrite Hq. reflexivity. }
  destruct (spoken_cycle w st1 [] _ Hq1 d
              (fun s => analyze_image_returns w s bytes resp d Hcam Hfile Hresp Hd))
    as (r & st2 & tail & Hrun & (Hq2 & _) & Htail).
  rewrite Hpopen in Htail. destruct Htail as [-> ->].
  rewrite process_tasks_press. fold st1.
  rewrite (process_tasks_poll w [] st1) by (rewrite Hrun; reflexivity).
  rewrite Hrun.
  cbn [process_tasks result_of state_of trace_of fst snd].
  rewrite app_nil_r.
  split; [reflexivity|].
  split; [|split; [|exact Hq2]].
  - reflexivity.
  - reflexivity.
Qed.

Lemma press_then_turn_witness :
  pulses (trace_of (process_tasks [Press BtnPin; Poll (Sample.answers Sample.nested)]
                      (Sample.ready []))) = [0.2%Q; 0.5%Q]
  /\ speech_calls (trace_of (process_tasks [Press BtnPin; Poll (Sample.answers Sample.nested)]
                               (Sample.ready []))) = [espeak_command "Hi."].
Proof.
  destruct (press_then_turn BtnPin (Sample.answers Sample.nested) (Sample.ready [])
              Sample.jpeg Sample.nested)
    as (d & Hd & _ & Htrace & Hpulses & _); try reflexivity.
  split; [exact Hpulses|].
  rewrite Htrace. injection Hd as <-. reflexivity.
Defined.

Lemma pulse_tells_the_outcome_witness :
  pulses (trace_of (process_tasks_iteration Fault.unreadable
                      (Sample.ready [VStr "capture"]))) = [1.0%Q].
Proof.
  apply (proj2 (pulse_tells_the_outcome Fault.unreadable
                  (Sample.ready [VStr "capture"]) [] eq_refl eq_refl)).
  intros (_ & [bytes H] & _). discriminate H.
Defined.

(** ** The text given to the shell *)

Lemma count_char_app (c : ascii) (s1 s2 : string) :
  count_char c (s1 ++ s2) = (count_char c s1 + count_char c s2)%nat.
Proof.
  induction s1 as [|a r IH]; simpl; [reflexivity|].
  rewrite IH. apply Nat.add_assoc.
Qed.

Lemma count_replace_same (c : ascii) (s : string) :
  count_char c (PyStr.replace c EmptyString s) = 0%nat.
Proof.
  induction s as [|a r IH]; simpl; [reflexivity|].
  destruct (Ascii.eqb a c) eqn:Hac; simpl; [exact IH|].
  rewrite Hac, IH. reflexivity.
Qed.

Lemma count_replace_other (c c' : ascii) (s : string) :
  Ascii.eqb c' c = false ->
  count_char c (PyStr.replace c' EmptyString s) = count_char c s.
Proof.
  intros Hcc.
  induction s as [|a r IH]; simpl; [reflexivity|].
  destruct (Ascii.eqb a c') eqn:Hac; simpl.
  - apply Ascii.eqb_eq in Hac. subst a. rewrite Hcc, IH. reflexivity.
  - rewrite IH. reflexivity.
Qed.

Lemma replace_absent (c : ascii) (s : string) :
  count_char c s = 0%nat -> PyStr.replace c EmptyString s = s.
Proof.
  induction s as [|a r IH]; simpl; [reflexivity|].
  destruct (Ascii.eqb a c); simpl; [discriminate|].
  intros H. rewrite (IH H). reflexivity.
Qed.

Lemma length_replace (c : ascii) (s : string) :
  (String.length (PyStr.replace c EmptyString s) + count_char c s)%nat = String.length s.
Proof.
  induction s as [|a r IH]; simpl; [reflexivity|].
  destruct (Ascii.eqb a c); simpl; lia.
Qed.

(** X12.  The text that [speak] puts between the double quotes of the
    shell command holds neither a double nor a single quote, so that the
    command holds exactly the two double quotes of the template and no
    single quote.  Removing the quotes shortens the text by the number of
    quotes it held and by nothing else, a text without quotes goes through
    unchanged (no other character is escaped or removed), and removing
    twice is removing once. *)
Theorem speech_text_has_no_quotes (text : string) :
  count_char dquote (safe_text_of text) = 0%nat
  /\ count_char squote (safe_text_of text) = 0%nat
  /\ count_char dquote (espeak_command (safe_text_of text)) = 2%nat
  /\ count_char squote (espeak_command (safe_text_of text)) = 0%nat
  /\ (String.length (safe_text_of text)
      + count_char dquote text + count_char squote text)%nat = String.length text
  /\ (count_char dquote text = 0%nat -> count_char squote text = 0%nat ->
      safe_text_of text = text)
  /\ safe_text_of (safe_text_of text) = safe_text_of text.
Proof.
  assert (Hd : count_char dquote (safe_text_of text) = 0%nat).
  { unfold safe_text_of.
    rewrite count_replace_other by reflexivity. apply count_replace_same. }
  assert (Hs : count_char squote (safe_text_of text) = 0%nat).
  { unfold safe_text_of. apply count_replace_same. }
  split; [exact Hd|]. split; [exact Hs|].
  split; [|split; [|split; [|split]]].
  - unfold espeak_command. cbn. rewrite count_char_app, Hd. reflexivity.
  - unfold espeak_command. cbn. rewrite count_char_app, Hs. reflexivity.
  - unfold safe_text_of.
    pose proof (length_replace squote (PyStr.replace dquote EmptyString text)) as H1.
    pose proof (length_replace dquote text) as H2.
    rewrite (count_replace_other squote dquote text) in H1 by reflexivity.
    lia.
  - intros H1 H2. unfold safe_text_of.
    rewrite (replace_absent dquote text H1). apply (replace_absent squote text H2).
  - unfold safe_text_of at 1.
    rewrite (replace_absent dquote _ Hd). apply (replace_absent squote _ Hs).
Qed.

Lemma speech_text_has_no_quotes_witness :
  safe_text_of "a `sign` at $HOME; 50% off \ sale" = "a `sign` at $HOME; 50% off \ sale".
Proof.
  apply (proj1 (proj2 (proj2 (proj2 (proj2 (proj2
           (speech_text_has_no_quotes "a `sign` at $HOME; 50% off \ sale")))))));
    reflexivity.
Defined.

(** ** Stripping *)

Lemma lstrip_split (s : string) :
  exists pre, s = (pre ++ PyStr.lstrip s)%string /\ all_space pre = true.
Proof.
  induction s as [|c r (pre & Hr & Hpre)]; simpl.
  - exists EmptyString. split; reflexivity.
  - destruct (PyStr.isspace c) eqn:Hc.
    + exists (String c pre). simpl. rewrite Hc, Hpre, <- Hr. split; reflexivity.
    + exists EmptyString. split; reflexivity.
Qed.

Lemma lstrip_first (s : string) :
  match first_char (PyStr.lstrip s) with
  | Some a => PyStr.isspace a = false
  | None => PyStr.lstrip s = EmptyString
  end.
Proof.
  induction s as [|c r IH]; simpl; [reflexivity|].
  destruct (PyStr.isspace c) eqn:Hc; [exact IH|exact Hc].
Qed.

Lemma rstrip_split (s : string) :
  exists post, s = (PyStr.rstrip s ++ post)%string /\ all_space post = true.
Proof.
  induction s as [|c r (post & Hr & Hpost)]; simpl.
  - exists EmptyString. split; reflexivity.
  - destruct (PyStr.rstrip r) as [|a t] eqn:Hrs.
    + simpl in Hr. subst post.
      destruct (PyStr.isspace c) eqn:Hc.
      * exists (String c r). simpl. rewrite Hc, Hpost. split; reflexivity.
      * exists r. split; [reflexivity|exact Hpost].
    + exists post. simpl. rewrite Hr at 1. split; [reflexivity|exact Hpost].
Qed.

Lemma rstrip_last (s : string) :
  match last_char (PyStr.rstrip s) with
  | Some b => PyStr.isspace b = false
  | None => PyStr.rstrip s = EmptyString
  end.
Proof.
  induction s as [|c r IH]; simpl; [reflexivity|].
  destruct (PyStr.rstrip r) as [|a t] eqn:Hrs.
  - destruct (PyStr.isspace c) eqn:Hc; simpl; [reflexivity|exact Hc].
  - simpl in IH |- *.
    destruct (match t with EmptyString => Some a | String _ _ => last_char t end);
      [exact IH|discriminate IH].
Qed.

(** [rstrip] keeps the first character of what it does not empty. *)
Lemma rstrip_first (s : string) :
  PyStr.rstrip s = EmptyString \/ first_char (PyStr.rstrip s) = first_char s.
Proof.
  destruct s as [|c r]; simpl; [left; reflexivity|].
  destruct (PyStr.rstrip r) as [|a t].
  - destruct (PyStr.isspace c); [left|right]; reflexivity.
  - right. reflexivity.
Qed.

Lemma rstrip_idempotent (s : string) :
  PyStr.rstrip (PyStr.rstrip s) = PyStr.rstrip s.
Proof.
  induction s as [|c r IH]; simpl; [reflexivity|].
  destruct (PyStr.rstrip r) as [|a t] eqn:Hrs.
  - destruct (PyStr.isspace c) eqn:Hc; simpl; [reflexivity|].
    rewrite Hc. reflexivity.
  - simpl. simpl in IH. rewrite IH. reflexivity.
Qed.

Lemma lstrip_fixed (s : string) :
  match first_char s with
  | Some a => PyStr.isspace a = false
  | None => True
  end ->
  PyStr.lstrip s = s.
Proof.
  destruct s as [|c r]; simpl; [reflexivity|].
  intros ->. reflexivity.
Qed.

Lemma strip_trimmed (s : string) : trimmed (PyStr.strip s).
Proof.
  unfold trimmed, PyStr.strip.
  pose proof (rstrip_last (PyStr.lstrip s)) as Hl.
  pose proof (rstrip_first (PyStr.lstrip s)) as Hf.
  pose proof (lstrip_first s) as Hs.
  destruct Hf as [Hf|Hf].
  - rewrite Hf. reflexivity.
  - rewrite Hf.
    destruct (first_char (PyStr.lstrip s)) as [a|] eqn:Ha.
    + destruct (last_char (PyStr.rstrip (PyStr.lstrip s))) as [b|]; auto.
    + rewrite Hs. reflexivity.
Qed.

Lemma strip_idempotent (s : string) :
  PyStr.strip (PyStr.strip s) = PyStr.strip s.
Proof.
  pose proof (strip_trimmed s) as H.
  unfold trimmed in H. unfold PyStr.strip at 1.
  rewrite lstrip_fixed.
  - unfold PyStr.strip. apply rstrip_idempotent.
  - destruct (first_char (PyStr.strip s)) as [a|] eqn:Hf; [|exact I].
    destruct (last_char (PyStr.strip s)); [apply H|].
    rewrite H in Hf. discriminate Hf.
Qed.

Lemma strip_split (s : string) :
  exists pre post,
    s = (pre ++ PyStr.strip s ++ post)%string
    /\ all_space pre = true /\ all_space post = true.
Proof.
  destruct (lstrip_split s) as (pre & Hs & Hpre).
  destruct (rstrip_split (PyStr.lstrip s)) as (post & Hl & Hpost).
  exists pre, post. unfold PyStr.strip.
  rewrite <- Hl, <- Hs. auto.
Qed.

Lemma lstrip_all_space (s : string) :
  all_space s = true -> PyStr.lstrip s = EmptyString.
Proof.
  induction s as [|c r IH]; simpl; [reflexivity|].
  intros H. apply andb_prop in H. destruct H as [Hc Hr].
  rewrite Hc. apply (IH Hr).
Qed.

(** X13.  Whatever the response, the text that [extract_text] returns is
    the stringified response or a text that neither starts nor ends with
    white space and that stripping leaves unchanged.  From a direct text
    field it is the field without the white space around it, and nothing
    else is removed: the field is white space, the result, white space.  A
    field of white space only gives the empty text. *)
Theorem extracted_text_is_trimmed (resp : pyobj) :
  (exists d,
      extract_text resp = Returns d
      /\ (d = obj_str resp \/ trimmed d /\ PyStr.strip d = d))
  /\ (forall s,
        lookup_attr (VObj resp) "output_text" = Some (VStr s) ->
        exists d pre post,
          extract_text resp = Returns d
          /\ s = (pre ++ d ++ post)%string
          /\ all_space pre = true /\ all_space post = true
          /\ trimmed d)
  /\ (forall s,
        lookup_attr (VObj resp) "output_text" = Some (VStr s) ->
        all_space s = true ->
        extract_text resp = Returns EmptyString).
Proof.
  split; [|split].
  - destruct (extract_text_spec_or_str resp) as [H|H].
    + exists (spec_extract_text resp). split; [exact H|].
      unfold spec_extract_text.
      destruct (spec_direct_text resp) as [s|].
      * right. split; [apply strip_trimmed|apply strip_idempotent].
      * destruct (spec_first_text_part resp) as [t|].
        -- right. split; [apply strip_trimmed|apply strip_idempotent].
        -- left. reflexivity.
    + exists (obj_str resp). split; [exact H|left; reflexivity].
  - intros s Hs.
    destruct (strip_split s) as (pre & post & Hsplit & Hpre & Hpost).
    exists (PyStr.strip s), pre, post.
    split; [apply (extract_text_direct resp s Hs)|].
    split; [exact Hsplit|].
    split; [exact Hpre|]. split; [exact Hpost|apply strip_trimmed].
  - intros s Hs Hspace.
    rewrite (extract_text_direct resp s Hs).
    unfold PyStr.strip. rewrite (lstrip_all_space s Hspace). reflexivity.
Qed.

Lemma extracted_text_is_trimmed_witness :
  exists d pre post,
    extract_text Sample.chair = Returns d
    /\ " A 'red' chair near a window. " = (pre ++ d ++ post)%string
    /\ all_space pre = true /\ all_space post = true
    /\ trimmed d.
Proof.
  apply (proj1 (proj2 (extracted_text_is_trimmed Sample.chair))).
  reflexivity.
Defined.

(** ** The data URL *)

Lemma below_64 (n : N) : (n < 64)%N -> In n (map N.of_nat (seq 0 64)).
Proof.
  intros H. rewrite <- (N2Nat.id n). apply in_map, in_seq. lia.
Qed.

Lemma index_digit (n : N) :
  (n < 64)%N -> Base64Decode.index (Base64.digit n) = Some n.
Proof.
  intros H.
  assert (Hall : forallb (fun k =>
                             match Base64Decode.index (Base64.digit k) with
                             | Some m => N.eqb m k
                             | None => false
                             end)
                   (map N.of_nat (seq 0 64)) = true) by (vm_compute; reflexivity).
  rewrite forallb_forall in Hall. specialize (Hall n (below_64 n H)).
  destruct (Base64Decode.index (Base64.digit n)) as [m|]; [|discriminate Hall].
  apply N.eqb_eq in Hall. subst m. reflexivity.
Qed.

Lemma index_pad : Base64Decode.index "="%char = None.
Proof. reflexivity. Qed.

Lemma byte_of_N (a : Byte.byte) (n : N) : n = Byte.to_N a -> Byte.of_N n = Some a.
Proof. intros ->. apply Byte.of_to_N. Qed.

Ltac sextet :=
  match goal with
  | |- (_ < 64)%N => zify; Z.to_euclidean_division_equations; lia
  end.

Ltac sextets a b c :=
  pose proof (Byte.to_N_bounded a);
  pose proof (Byte.to_N_bounded b);
  pose proof (Byte.to_N_bounded c).

(** Lists, three elements at a time. *)
Lemma list_ind3 {A} (P : list A -> Prop) :
  P [] -> (forall a, P [a]) -> (forall a b, P [a; b]) ->
  (forall a b c l, P l -> P (a :: b :: c :: l)) ->
  forall l, P l.
Proof.
  intros H0 H1 H2 H3.
  assert (H : forall l, P l /\ (forall a, P (a :: l)) /\ (forall a b, P (a :: b :: l))).
  { induction l as [|x l (IH0 & IH1 & IH2)].
    - auto.
    - split; [apply IH1|]. split; [intros a; apply IH2|].
      intros a b. apply H3, IH0. }
  intros l. apply H.
Qed.

Lemma b64decode_b64encode (bs : list Byte.byte) :
  Base64Decode.b64decode (Base64.b64encode bs) = Some bs.
Proof.
  induction bs as [|a|a b|a b c l IH] using list_ind3.
  - reflexivity.
  - sextets a a a.
    cbn [Base64.b64encode Base64Decode.b64decode].
    rewrite !index_digit by sextet. rewrite index_pad. cbn.
    unfold Base64Decode.decode1.
    rewrite (byte_of_N a); [reflexivity|].
    zify; Z.to_euclidean_division_equations; lia.
  - sextets a b b.
    cbn [Base64.b64encode Base64Decode.b64decode].
    rewrite !index_digit by sextet. rewrite index_pad. cbn.
    unfold Base64Decode.decode2.
    rewrite (byte_of_N a), (byte_of_N b); [reflexivity| |];
      zify; Z.to_euclidean_division_equations; lia.
  - sextets a b c.
    cbn [Base64.b64encode Base64Decode.b64decode].
    rewrite !index_digit by sextet. rewrite IH.
    unfold Base64Decode.decode3.
    rewrite (byte_of_N a), (byte_of_N b), (byte_of_N c); [reflexivity| | |];
      zify; Z.to_euclidean_division_equations; lia.
Qed.

Lemma b64encode_length (bs : list Byte.byte) :
  String.length (Base64.b64encode bs) = (4 * ((length bs + 2) / 3))%nat.
Proof.
  induction bs as [|a|a b|a b c l IH] using list_ind3; try reflexivity.
  cbn [Base64.b64encode String.length length]. rewrite IH.
  replace (S (S (S (length l))) + 2)%nat with (length l + 2 + 1 * 3)%nat by lia.
  rewrite Nat.div_add by discriminate. lia.
Qed.

Lemma length_append (s1 s2 : string) :
  String.length (s1 ++ s2) = (String.length s1 + String.length s2)%nat.
Proof.
  induction s1 as [|c r IH]; simpl; [reflexivity|]. rewrite IH. reflexivity.
Qed.

(** X14.  The data URL loses nothing of the image: when the file is read,
    [to_data_url] returns the prefix [data:image/jpeg;base64,] followed by
    an encoding from which the bytes read can be decoded again, so that two
    files with different contents never give the same URL; the encoding is
    four characters for every three bytes, rounded up.  The function opens
    the file and does nothing else. *)
Theorem data_url_keeps_the_image
  (w : world) (path : string) (st : state) (bytes : list Byte.byte) :
  image_file w = Returns bytes ->
  to_data_url w path st =
    (Returns ("data:image/jpeg;base64," ++ Base64.b64encode bytes)%string, st,
     [OpenRead path])
  /\ Base64Decode.b64decode (Base64.b64encode bytes) = Some bytes
  /\ String.length ("data:image/jpeg;base64," ++ Base64.b64encode bytes)
     = (23 + 4 * ((length bytes + 2) / 3))%nat
  /\ (forall w' st' bytes',
        image_file w' = Returns bytes' ->
        result_of (to_data_url w' path st') = result_of (to_data_url w path st) ->
        bytes' = bytes).
Proof.
  intros Hfile.
  assert (Hrun : forall w0 st0 bytes0,
             image_file w0 = Returns bytes0 ->
             to_data_url w0 path st0 =
             (Returns ("data:image/jpeg;base64," ++ Base64.b64encode bytes0)%string,
              st0, [OpenRead path])).
  { intros w0 st0 bytes0 H. unfold to_data_url, bind, lift, emit, ret.
    rewrite H. reflexivity. }
  split; [apply (Hrun w st bytes Hfile)|].
  split; [apply b64decode_b64encode|].
  split.
  - rewrite length_append, b64encode_length. reflexivity.
  - intros w' st' bytes' Hfile' H.
    rewrite (Hrun w st bytes Hfile), (Hrun w' st' bytes' Hfile') in H.
    cbn [result_of fst] in H. injection H as H.
    apply (f_equal Base64Decode.b64decode) in H.
    rewrite !b64decode_b64encode in H. injection H as H. exact H.
Qed.

Lemma data_url_keeps_the_image_witness :
  result_of (to_data_url (Sample.answers Sample.chair) IMAGE_PATH (Sample.ready []))
  = Returns "data:image/jpeg;base64,/9j/2Q=="
  /\ Base64Decode.b64decode "/9j/2Q==" = Some Sample.jpeg.
Proof.
  destruct (data_url_keeps_the_image (Sample.answers Sample.chair) IMAGE_PATH
              (Sample.ready []) Sample.jpeg eq_refl)
    as (Hrun & Hdec & _).
  split; [rewrite Hrun; reflexivity|exact Hdec].
Defined.

(** ** The interrupt inside a service call *)

(** X15.  When the interrupt arrives inside the capture, the reading of
    the image or the request, the turn is left at once: no pulse is given,
    nothing is spoken, the poll sleep does not run, the task has been taken
    from the queue and is not put back, and the loop stops there, the rest
    of the schedule never running. *)
Theorem interrupt_in_service_stops_the_turn
  (w : world) (st : state) (q : list pyval) :
  task_queue st = VStr "capture" :: q ->
  fswebcam w = RunRaised KeyboardInterrupt
  \/ (fswebcam w = Exited 0 /\ image_file w = Raises KeyboardInterrupt)
  \/ (fswebcam w = Exited 0
      /\ (exists bytes, image_file w = Returns bytes)
      /\ responses_create w = Raises KeyboardInterrupt) ->
  result_of (process_tasks_iteration w st) = Raises KeyboardInterrupt
  /\ pulses (trace_of (process_tasks_iteration w st)) = []
  /\ speech_calls (trace_of (process_tasks_iteration w st)) = []
  /\ queue_puts (trace_of (process_tasks_iteration w st)) = []
  /\ ~ In (Sleep 0.1) (trace_of (process_tasks_iteration w st))
  /\ task_queue (state_of (process_tasks_iteration w st)) = q
  /\ (forall rest,
        process_tasks (Poll w :: rest) st =
        (Stopped KeyboardInterrupt, state_of (process_tasks_iteration w st),
         trace_of (process_tasks_iteration w st))).
Proof.
  intros Hq H.
  assert (Hrun : exists pre,
             process_tasks_iteration w st =
             (Raises KeyboardInterrupt,
              {| task_queue := q;
                 pin_level := pin_level st;
                 gpio_channels := gpio_channels st;
                 gpio_event_detect := gpio_event_detect st |},
              QueueGet (VStr "capture") :: pre)
             /\ (pre = capture_events \/ pre = read_events
                 \/ exists bytes, pre = request_events bytes)).
  { destruct H as [Hcam|[[Hcam Hfile]|(Hcam & [bytes Hfile] & Hresp)]].
    - exists capture_events. split; [|auto].
      apply interrupted_cycle; [exact Hq| |reflexivity].
      intros s. unfold analyze_image, capture_image, subprocess_run_check, bind.
      rewrite Hcam. reflexivity.
    - exists read_events. split; [|auto].
      apply interrupted_cycle; [exact Hq| |reflexivity].
      intros s. apply (analyze_image_read_raises w s _ Hcam Hfile).
    - exists (request_events bytes). split; [|eauto].
      apply interrupted_cycle; [exact Hq| |reflexivity].
      intros s. apply (analyze_image_create_raises w s bytes _ Hcam Hfile Hresp). }
  destruct Hrun as (pre & Hrun & Hpre).
  assert (Hr : result_of (process_tasks_iteration w st) = Raises KeyboardInterrupt)
    by (rewrite Hrun; reflexivity).
  split; [exact Hr|].
  split; [|split; [|split; [|split; [|split]]]].
  - rewrite Hrun. destruct Hpre as [->|[->|[bytes ->]]]; reflexivity.
  - rewrite Hrun. destruct Hpre as [->|[->|[bytes ->]]]; reflexivity.
  - rewrite Hrun. destruct Hpre as [->|[->|[bytes ->]]]; reflexivity.
  - rewrite Hrun. cbn [trace_of snd].
    destruct Hpre as [->|[->|[bytes ->]]]; cbn;
      intros Hin; repeat (destruct Hin as [Hin|Hin]; [discriminate Hin|]); exact Hin.
  - rewrite Hrun. reflexivity.
  - intros rest. apply (process_tasks_poll_raises w rest st _ Hr).
Qed.

Lemma interrupt_in_service_stops_the_turn_witness :
  result_of (process_tasks [Poll Fault.interrupted_capture; Poll Sample.camera_down]
               (Sample.ready [VStr "capture"; VStr "capture"]))
  = Stopped KeyboardInterrupt
  /\ pulses (trace_of (process_tasks_iteration Fault.interrupted_capture
                         (Sample.ready [VStr "capture"; VStr "capture"]))) = [].
Proof.
  destruct (interrupt_in_service_stops_the_turn Fault.interrupted_capture
              (Sample.ready [VStr "capture"; VStr "capture"]) [VStr "capture"]
              eq_refl (or_introl eq_refl))
    as (_ & Hpulses & _ & _ & _ & _ & Hloop).
  split; [|exact Hpulses].
  rewrite Hloop. reflexivity.
Defined.

(** ** The nested shape, item by item *)

Lemma scan_items_app (pre post : list pyval) :
  scan_items (pre ++ post) =
  match scan_items pre with
  | Returns None => scan_items post
  | r => r
  end.
Proof.
  induction pre as [|item pre IH]; simpl; [reflexivity|].
  destruct (iterate (getattr_default item "content" (VList []))) as [parts|e];
    [|reflexivity].
  destruct (scan_parts parts) as [[s|]|e]; [reflexivity|exact IH|reflexivity].
Qed.

(** X16.  Without a direct text field, [extract_text] reads the items of
    [output] in order and stops at the first text-typed part.  What comes
    after that part is never looked at, whatever it is; but an item whose
    [content] cannot be iterated, met before any text-typed part, makes the
    result the stringified response, even when a later item holds text. *)
Theorem nested_scan_stops_at_first_text
  (resp : pyobj) (before after : list pyval) :
  lookup_attr (VObj resp) "output_text" = None ->
  lookup_attr (VObj resp) "output" = Some (VList (before ++ after)) ->
  Forall (fun item => list_or_absent (lookup_attr item "content")) before ->
  (forall part t,
      find text_typed (flat_map content_of before) = Some part ->
      lookup_attr part "text" = Some (VStr t) ->
      extract_text resp = Returns (PyStr.strip t))
  /\ (forall bad rest,
        find text_typed (flat_map content_of before) = None ->
        after = bad :: rest ->
        iterate (getattr_default bad "content" (VList [])) =
          Raises (Exception "TypeError" "object is not iterable") ->
        extract_text resp = Returns (obj_str resp)).
Proof.
  intros Hdirect Hout Hbefore.
  assert (Hrun : extract_text_try resp = scan_items (before ++ after)).
  { unfold extract_text_try, hasattr, getattr_default.
    rewrite Hdirect, Hout. reflexivity. }
  unfold extract_text. rewrite Hrun, scan_items_app.
  rewrite (scan_items_well_formed before Hbefore), scan_parts_find.
  split.
  - intros part t Hfind Htext. rewrite Hfind, Htext. reflexivity.
  - intros bad rest Hfind -> Hbad. rewrite Hfind. simpl. rewrite Hbad. reflexivity.
Qed.

Lemma nested_scan_stops_at_first_text_witness :
  extract_text
    (MkObj "Response(tail)"
       [("output", VList [Sample.message [Sample.text_part (VStr " first ")];
                          VObj (MkObj "Broken" [("content", VNone)])])])
  = Returns "first"
  /\ extract_text
       (MkObj "Response(head)"
          [("output", VList [VObj (MkObj "Broken" [("content", VNone)]);
                             Sample.message [Sample.text_part (VStr " second ")]])])
     = Returns "Response(head)".
Proof.
  split.
  - destruct (nested_scan_stops_at_first_text
                (MkObj "Response(tail)"
                   [("output", VList [Sample.message [Sample.text_part (VStr " first ")];
                                      VObj (MkObj "Broken" [("content", VNone)])])])
                [Sample.message [Sample.text_part (VStr " first ")]]
                [VObj (MkObj "Broken" [("content", VNone)])]
                eq_refl eq_refl) as [Hfirst _].
    + repeat constructor.
    + apply (Hfirst (Sample.text_part (VStr " first ")) " first "); reflexivity.
  - destruct (nested_scan_stops_at_first_text
                (MkObj "Response(head)"
                   [("output", VList [VObj (MkObj "Broken" [("content", VNone)]);
                                      Sample.message [Sample.text_part (VStr " second ")]])])
                []
                [VObj (MkObj "Broken" [("content", VNone)]);
                 Sample.message [Sample.text_part (VStr " second ")]]
                eq_refl eq_refl) as [_ Hbad].
    + constructor.
    + apply (Hbad (VObj (MkObj "Broken" [("content", VNone)]))
               [Sample.message [Sample.text_part (VStr " second ")]]);
        reflexivity.
Defined.
